(** * Medicare call-appointment agent: conversation state machine

    A shallow embedding of the turn handlers of [src/api/routes.py], the
    model-assisted extractor of [src/services/llm/__init__.py] and the store
    queries of [src/services/database/__init__.py], followed by the
    properties of the specification that were checked against them.

    Python values are dynamically typed: dictionaries are finite maps from
    strings to [pyval]; text is a [string] of code points below 256;
    integers are [Z].
    Handlers that mutate the Flask session or the process-wide
    [conversation_history] are written in state-passing style. *)

From Stdlib Require Import Ascii String ZArith QArith Bool List Lia.
From stdpp Require Import gmap strings list fin_maps.

Local Open Scope string_scope.
Local Set Warnings "-register-all".

(** ** Python string primitives

    A Python [str] is a sequence of code points.  A [string] here holds one
    code point per character, so the text of the model is the text whose
    code points are below 256; on that range the classes and mappings
    below are the ones of CPython's Unicode database, not their ASCII
    parts. *)

Module PyStr.

Definition code (c : ascii) : N := N_of_ascii c.

Definition between (lo hi : N) (c : ascii) : bool :=
  (N.leb lo (code c) && N.leb (code c) hi)%bool.

(** The ranges [A-Z], [a-z] and [0-9] of a pattern.  [\d] and [int] know
    no other decimal digit below 256. *)
Definition is_upper (c : ascii) : bool := between 65 90 c.
Definition is_lower (c : ascii) : bool := between 97 122 c.
Definition is_letter (c : ascii) : bool := (is_upper c || is_lower c)%bool.
Definition is_digit (c : ascii) : bool := between 48 57 c.

(** [str.isalpha] on one character: the letters of the range, that is the
    ASCII letters, U+00AA, U+00B5, U+00BA and U+00C0-U+00FF without the
    signs U+00D7 and U+00F7.  The cased characters of the range (what
    [str.title] looks at) are the same ones. *)
Definition is_alpha (c : ascii) : bool :=
  (is_letter c || N.eqb (code c) 170 || N.eqb (code c) 181 || N.eqb (code c) 186
   || between 192 214 c || between 216 246 c || between 248 255 c)%bool.

(** [str.isspace] on one character, which is also [\s] in a pattern and
    what [str.split] and [str.strip] take for a blank: tab to carriage
    return, the separators U+001C-U+001F, the blank, U+0085 and U+00A0. *)
Definition is_space (c : ascii) : bool :=
  (between 9 13 c || between 28 32 c || N.eqb (code c) 133 || N.eqb (code c) 160)%bool.

(** The blanks [int] skips around a numeral: the separators U+001C-U+001F
    are none for it. *)
Definition is_int_space (c : ascii) : bool :=
  (between 9 13 c || N.eqb (code c) 32 || N.eqb (code c) 133 || N.eqb (code c) 160)%bool.

(** Lower case of one character: [A-Z] and U+00C0-U+00DE without U+00D7. *)
Definition to_lower (c : ascii) : ascii :=
  if (is_upper c || between 192 214 c || between 216 222 c)%bool
  then ascii_of_N (code c + 32) else c.

(** Title case of one character: [a-z] and U+00E0-U+00FE without U+00F7
    lose 32; U+00DF becomes the two characters [Ss].  The title-case forms
    of U+00B5 and U+00FF are U+039C and U+0178, which no [string] holds:
    these two characters are left as they are, so that [title] and
    [capitalize] are Python's on the text [titles_in_range] accepts. *)
Definition to_title (c : ascii) : string :=
  if (is_lower c || between 224 246 c || between 248 254 c)%bool
  then String (ascii_of_N (code c - 32)) EmptyString
  else if N.eqb (code c) 223 then "Ss"
  else String c EmptyString.

Fixpoint map_chars (f : ascii -> ascii) (s : string) : string :=
  match s with
  | EmptyString => EmptyString
  | String c s' => String (f c) (map_chars f s')
  end.

Fixpoint all_chars (p : ascii -> bool) (s : string) : bool :=
  match s with
  | EmptyString => true
  | String c s' => (p c && all_chars p s')%bool
  end.

Definition titles_in_range (s : string) : bool :=
  all_chars (fun c => negb (N.eqb (code c) 181 || N.eqb (code c) 255)) s.

(** [s.lower()] *)
Definition lower (s : string) : string := map_chars to_lower s.

(** [s.isalpha()]: at least one character and all of them letters. *)
Definition isalpha (s : string) : bool :=
  match s with
  | EmptyString => false
  | _ => all_chars is_alpha s
  end.

(** [s.title()]: a character is title-cased when the character before it
    is not cased and lower-cased otherwise. *)
Fixpoint title_from (prev_cased : bool) (s : string) : string :=
  match s with
  | EmptyString => EmptyString
  | String c s' =>
      (if prev_cased then String (to_lower c) EmptyString else to_title c)
      +:+ title_from (is_alpha c) s'
  end.
Definition title (s : string) : string := title_from false s.

(** [s.capitalize()]: the first character title-cased, the others
    lower-cased. *)
Definition capitalize (s : string) : string :=
  match s with
  | EmptyString => EmptyString
  | String c s' => to_title c +:+ lower s'
  end.

(** [s.lstrip()], [s.rstrip()], [s.strip()]; [strip_by] with the blanks of
    [int]. *)
Fixpoint lstrip_by (blank : ascii -> bool) (s : string) : string :=
  match s with
  | EmptyString => EmptyString
  | String c s' => if blank c then lstrip_by blank s' else s
  end.
Fixpoint rstrip_by (blank : ascii -> bool) (s : string) : string :=
  match s with
  | EmptyString => EmptyString
  | String c s' =>
      match rstrip_by blank s' with
      | EmptyString => if blank c then EmptyString else String c EmptyString
      | r => String c r
      end
  end.
Definition strip_by (blank : ascii -> bool) (s : string) : string :=
  rstrip_by blank (lstrip_by blank s).
Definition lstrip (s : string) : string := lstrip_by is_space s.
Definition rstrip (s : string) : string := rstrip_by is_space s.
Definition strip (s : string) : string := strip_by is_space s.

(** [s.split()]: the maximal runs of non-blank characters. [cur] holds the
    run being read, reversed. *)
Definition rev_string (l : list ascii) : string :=
  string_of_list_ascii (List.rev l).
Definition flush (cur : list ascii) : list string :=
  match cur with
  | [] => []
  | _ => [rev_string cur]
  end.
Fixpoint split_from (cur : list ascii) (s : string) : list string :=
  match s with
  | EmptyString => flush cur
  | String c s' =>
      if is_space c then flush cur ++ split_from [] s'
      else split_from (c :: cur) s'
  end.
Definition split (s : string) : list string := split_from [] s.

(** [sep.join(parts)] *)
Definition join (sep : string) (parts : list string) : string :=
  String.concat sep parts.

(** [needle in s] on strings *)
Fixpoint contains (needle s : string) : bool :=
  if String.prefix needle s then true
  else match s with
       | EmptyString => false
       | String _ s' => contains needle s'
       end.

(** [s.replace(old, new)]: every non-overlapping occurrence, left to right.
    [skip] counts the characters of an occurrence still to be dropped. *)
Fixpoint replace_from (old new : string) (skip : nat) (s : string) : string :=
  match s with
  | EmptyString => EmptyString
  | String c s' =>
      match skip with
      | S k => replace_from old new k s'
      | O =>
          if String.prefix old s
          then new +:+ replace_from old new (String.length old - 1) s'
          else String c (replace_from old new 0 s')
      end
  end.
Fixpoint intersperse (new s : string) : string :=
  match s with
  | EmptyString => new
  | String c s' => new +:+ String c (intersperse new s')
  end.
Definition replace (old new s : string) : string :=
  match old with
  | EmptyString => intersperse new s
  | _ => replace_from old new 0 s
  end.

(** Decimal rendering of an integer, as [str(n)] gives it. *)
Definition digit_char (d : N) : ascii := ascii_of_N (48 + d).
Fixpoint dec_pos (fuel : nat) (n : N) (acc : string) : string :=
  match fuel with
  | O => acc
  | S f =>
      let acc' := String (digit_char (n mod 10)) acc in
      if (n <? 10)%N then acc' else dec_pos f (n / 10) acc'
  end.
Definition dec_N (n : N) : string := dec_pos (S (N.to_nat (N.log2 n))) n EmptyString.
Definition dec_Z (z : Z) : string :=
  match z with
  | Z0 => "0"
  | Zpos p => dec_N (Npos p)
  | Zneg p => "-" +:+ dec_N (Npos p)
  end.

(** Value of a run of decimal digits. *)
Fixpoint digits_value (acc : Z) (s : string) : option Z :=
  match s with
  | EmptyString => Some acc
  | String c s' =>
      if is_digit c
      then digits_value (10 * acc + Z.of_N (code c - 48)) s'
      else None
  end.

End PyStr.


(** ** Regular expressions

    The fragment of Python's [re] syntax that the handlers use, with the
    backtracking semantics of [re.search]: leftmost start, alternatives in
    order, greedy repetition giving back one character at a time, lazy
    repetition taking one more at a time.  Repetition only ever applies to
    a character class in the source patterns, and every pattern has a single
    capture group. *)

Module Re.
Import PyStr.

Inductive regex : Type :=
| Lit (s : string)
| Rep (cls : ascii -> bool) (lo : nat) (hi : option nat) (greedy : bool)
| Seq (r1 r2 : regex)
| Alt (r1 r2 : regex)
| Opt (r : regex)
| Group (r : regex)
| Eol.

Fixpoint lit (p s : string) : option string :=
  match p, s with
  | EmptyString, _ => Some s
  | String a p', String b s' => if Ascii.eqb a b then lit p' s' else None
  | String _ _, EmptyString => None
  end.

Definition orelse {R : Type} (a : option R) (b : unit -> option R) : option R :=
  match a with
  | Some r => Some r
  | None => b tt
  end.

Definition may_take (hi : option nat) : bool :=
  match hi with
  | Some O => false
  | _ => true
  end.

Fixpoint rep {R : Type} (cls : ascii -> bool) (greedy : bool) (lo : nat)
    (hi : option nat) (s : string) (k : string -> option R) : option R :=
  let stop := fun _ : unit => match lo with O => k s | S _ => None end in
  match s with
  | String c s' =>
      if (cls c && may_take hi)%bool
      then
        if greedy
        then orelse (rep cls greedy (Nat.pred lo) (Nat.pred <$> hi) s' k) stop
        else orelse (stop tt)
               (fun _ => rep cls greedy (Nat.pred lo) (Nat.pred <$> hi) s' k)
      else stop tt
  | EmptyString => stop tt
  end.

(** The text between the start [s] of a group and the point [rest] where
    its match ended. *)
Definition consumed (s rest : string) : string :=
  String.substring 0 (String.length s - String.length rest) s.

(** [$]: the end of the subject, or just before a final newline. *)
Definition at_end (s : string) : bool :=
  match s with
  | EmptyString => true
  | String c EmptyString => Ascii.eqb c "010"%char
  | _ => false
  end.

Fixpoint go {R : Type} (r : regex) (s : string) (g : option string)
    (k : string -> option string -> option R) : option R :=
  match r with
  | Lit p => match lit p s with Some rest => k rest g | None => None end
  | Rep cls lo hi greedy => rep cls greedy lo hi s (fun rest => k rest g)
  | Seq r1 r2 => go r1 s g (fun rest g' => go r2 rest g' k)
  | Alt r1 r2 => orelse (go r1 s g k) (fun _ => go r2 s g k)
  | Opt r1 => orelse (go r1 s g k) (fun _ => k s g)
  | Group r1 => go r1 s g (fun rest _ => k rest (Some (consumed s rest)))
  | Eol => if at_end s then k s g else None
  end.

(** [match_at r s]: a match of [r] starting at the first character of [s],
    as the text of group 1 ([None] when the group took no part). *)
Definition match_at (r : regex) (s : string) : option (option string) :=
  go r s None (fun _ g => Some g).

(** [re.search(r, s)] followed by [.group(1)]. *)
Fixpoint search (r : regex) (s : string) : option (option string) :=
  orelse (match_at r s)
    (fun _ => match s with
              | String _ s' => search r s'
              | EmptyString => None
              end).

(** The text of group 1 after a successful search.  Every pattern of the
    handlers sets group 1 on every match. *)
Definition capture (r : regex) (s : string) : option string :=
  match search r s with
  | Some (Some g) => Some g
  | _ => None
  end.

(** Pattern combinators. *)
Fixpoint seqs (rs : list regex) : regex :=
  match rs with
  | [] => Lit EmptyString
  | [r] => r
  | r :: rs' => Seq r (seqs rs')
  end.
Fixpoint alts (rs : list regex) : regex :=
  match rs with
  | [] => Lit EmptyString
  | [r] => r
  | r :: rs' => Alt r (alts rs')
  end.
Definition words (ws : list string) : regex := alts (Lit <$> ws).
Definition plus (cls : ascii -> bool) : regex := Rep cls 1 None true.
Definition star (cls : ascii -> bool) : regex := Rep cls 0 None true.
Definition lazy_plus (cls : ascii -> bool) : regex := Rep cls 1 None false.
Definition upto (cls : ascii -> bool) (lo hi : nat) : regex := Rep cls lo (Some hi) true.
Definition one (cls : ascii -> bool) : regex := Rep cls 1 (Some 1) true.

(** Character classes. *)
Definition alpha_or_space (c : ascii) : bool := (is_letter c || is_space c)%bool.
Definition not_newline (c : ascii) : bool := negb (Ascii.eqb c "010"%char).
Definition slash_or_dash (c : ascii) : bool := (Ascii.eqb c "/" || Ascii.eqb c "-")%bool.

End Re.

(** ** Python values

    What [json.loads] produces and what the handlers store in their
    dictionaries.  A float is a rational, the negative zero, an infinity
    or the not-a-number that [json.loads] returns for [NaN] (one object of
    the [json] module, so that two of them are identical though not
    equal).  An object nested inside a value is an association list; the
    dictionaries the handlers index themselves are finite maps
    ([gmap string pyval]). *)

Module Py.
Import PyStr.

Inductive pyfloat : Type :=
| Finite (q : Q)
| NegZero
| Infinite (negative : bool)
| NaN.

Inductive pyval : Type :=
| VNone
| VBool (b : bool)
| VInt (z : Z)
| VFloat (x : pyfloat)
| VStr (s : string)
| VList (l : list pyval)
| VDict (d : list (string * pyval)).

Inductive exn : Type :=
| TypeError
| ValueError
| KeyError
| AttributeError
| UnboundLocalError
| OverflowError
| OperationalError.

(** A computation that returns or raises. *)
Inductive outcome (A : Type) : Type :=
| Ok (a : A)
| Raise (e : exn).
Arguments Ok {A} a.
Arguments Raise {A} e.

#[global] Instance outcome_ret : MRet outcome := fun A a => Ok a.
#[global] Instance outcome_bind : MBind outcome := fun A B f m =>
  match m with
  | Ok a => f a
  | Raise e => Raise e
  end.

(** [bool(v)] *)
Definition truthy (v : pyval) : bool :=
  match v with
  | VNone => false
  | VBool b => b
  | VInt z => negb (Z.eqb z 0)
  | VFloat (Finite q) => negb (Qeq_bool q 0)
  | VFloat NegZero => false
  | VFloat _ => true
  | VStr s => negb (String.eqb s EmptyString)
  | VList l => match l with [] => false | _ => true end
  | VDict d => match d with [] => false | _ => true end
  end.

(** The number a value compares as: [True == 1 == 1.0]. *)
Definition num_of (v : pyval) : option pyfloat :=
  match v with
  | VBool b => Some (Finite (inject_Z (if b then 1 else 0)))
  | VInt z => Some (Finite (inject_Z z))
  | VFloat x => Some x
  | _ => None
  end.

(** [x == y] on numbers: the two zeros are equal, an infinity equals
    itself, not-a-number equals nothing. *)
Definition num_eq (x y : pyfloat) : bool :=
  match x, y with
  | NaN, _ | _, NaN => false
  | Infinite a, Infinite b => Bool.eqb a b
  | Infinite _, _ | _, Infinite _ => false
  | Finite p, Finite q => Qeq_bool p q
  | Finite p, NegZero => Qeq_bool p 0
  | NegZero, Finite q => Qeq_bool 0 q
  | NegZero, NegZero => true
  end.

Definition is_nan (v : pyval) : bool :=
  match v with VFloat NaN => true | _ => false end.

Fixpoint assoc {A : Type} (k : string) (d : list (string * A)) : option A :=
  match d with
  | [] => None
  | (k', v) :: d' => if String.eqb k k' then Some v else assoc k d'
  end.

(** [a == b].  The items of two lists or objects are compared as
    [x is y or x == y]; of the values here only not-a-number is identical
    to a value it is not equal to. *)
Fixpoint py_eq (a b : pyval) : bool :=
  match a, b with
  | VNone, VNone => true
  | VStr s, VStr t => String.eqb s t
  | VList l, VList m =>
      (fix all2 (l m : list pyval) : bool :=
         match l, m with
         | [], [] => true
         | x :: l', y :: m' => (((is_nan x && is_nan y) || py_eq x y) && all2 l' m')%bool
         | _, _ => false
         end) l m
  | VDict d, VDict e =>
      (Nat.eqb (length d) (length e) &&
       (fix sub (d : list (string * pyval)) : bool :=
          match d with
          | [] => true
          | (k, v) :: d' =>
              (match assoc k e with
               | Some w => ((is_nan v && is_nan w) || py_eq v w)%bool
               | None => false
               end && sub d')%bool
          end) d)%bool
  | _, _ =>
      match num_of a, num_of b with
      | Some x, Some y => num_eq x y
      | _, _ => false
      end
  end.

Definition is_none (v : pyval) : bool :=
  match v with VNone => true | _ => false end.

(** [len(v)] *)
Definition py_len (v : pyval) : outcome nat :=
  match v with
  | VStr s => Ok (String.length s)
  | VList l => Ok (length l)
  | VDict d => Ok (length d)
  | _ => Raise TypeError
  end.

(** [int(s)] on text: blanks around, an optional sign, decimal digits
    with single underscores between them.  Integers are unbounded; the
    cap CPython 3.11 can put on the digits of a numeral (4300 unless
    configured otherwise) is not part of the model, and what is proved of
    [int] on a given text is stated for numerals within it. *)
Fixpoint drop_underscores (prev_digit : bool) (s : string) : option string :=
  match s with
  | EmptyString => if prev_digit then Some EmptyString else None
  | String c s' =>
      if is_digit c then String c <$> drop_underscores true s'
      else if (Ascii.eqb c "_" && prev_digit)%bool then drop_underscores false s'
      else None
  end.
Definition parse_digits (s : string) : option Z :=
  match s with
  | EmptyString => None
  | _ => drop_underscores false s ≫= digits_value 0
  end.
Definition parse_int (s : string) : option Z :=
  match strip_by is_int_space s with
  | String "-" s' => Z.opp <$> parse_digits s'
  | String "+" s' => parse_digits s'
  | s' => parse_digits s'
  end.

(** [int(v)]: a float is cut towards zero; an infinity and not-a-number
    have no integer. *)
Definition py_int (v : pyval) : outcome Z :=
  match v with
  | VBool b => Ok (if b then 1 else 0)%Z
  | VInt z => Ok z
  | VFloat (Finite q) => Ok (Z.quot (Qnum q) (Zpos (Qden q)))
  | VFloat NegZero => Ok 0%Z
  | VFloat (Infinite _) => Raise OverflowError
  | VFloat NaN => Raise ValueError
  | VStr s => match parse_int s with Some z => Ok z | None => Raise ValueError end
  | _ => Raise TypeError
  end.

(** What the interpreter and its libraries supply and the repository does
    not contain: the text of a finite float ([repr]) and [dateutil]'s date
    parser ([None] when it raises). *)
Record date : Type := Date { year : Z; month : Z; day : Z }.
Definition date_eqb (a b : date) : bool :=
  (Z.eqb (year a) (year b) && Z.eqb (month a) (month b) && Z.eqb (day a) (day b))%bool.

Record runtime : Type := Runtime {
  float_repr : Q -> string;
  parse_date : string -> option date
}.

(** [repr(s)] of text: single quotes unless the text has one and no double
    quote; backslash escapes for the quote, the backslash and the
    characters that are not printable (the controls U+0000-U+001F and
    U+007F-U+009F, U+00A0 and U+00AD). *)
Definition hex_digit (d : N) : ascii :=
  if (d <? 10)%N then ascii_of_N (48 + d) else ascii_of_N (87 + d).
Definition escape_char (quote c : ascii) : string :=
  if (Ascii.eqb c quote || Ascii.eqb c "\")%bool then String "\" (String c EmptyString)
  else if Ascii.eqb c "010" then "\n"
  else if Ascii.eqb c "013" then "\r"
  else if Ascii.eqb c "009" then "\t"
  else if (N.ltb (code c) 32 || between 127 160 c || N.eqb (code c) 173)%bool
  then "\x" +:+ String (hex_digit (code c / 16)) (String (hex_digit (code c mod 16)) EmptyString)
  else String c EmptyString.
Fixpoint escape (quote : ascii) (s : string) : string :=
  match s with
  | EmptyString => EmptyString
  | String c s' => escape_char quote c +:+ escape quote s'
  end.
Definition repr_str (s : string) : string :=
  let quote : ascii :=
    if (contains "'" s && negb (contains (String "034" EmptyString) s))%bool
    then "034"%char else "'"%char in
  String quote (escape quote s) +:+ String quote EmptyString.

(** [repr(v)] and [str(v)] *)
Fixpoint py_repr (rt : runtime) (v : pyval) : string :=
  match v with
  | VNone => "None"
  | VBool b => if b then "True" else "False"
  | VInt z => dec_Z z
  | VFloat (Finite q) => float_repr rt q
  | VFloat NegZero => "-0.0"
  | VFloat (Infinite negative) => if negative then "-inf" else "inf"
  | VFloat NaN => "nan"
  | VStr s => repr_str s
  | VList l => "[" +:+ join ", " (List.map (py_repr rt) l) +:+ "]"
  | VDict d =>
      "{" +:+ join ", " (List.map (fun '(k, w) => repr_str k +:+ ": " +:+ py_repr rt w) d) +:+ "}"
  end.
Definition py_str (rt : runtime) (v : pyval) : string :=
  match v with
  | VStr s => s
  | _ => py_repr rt v
  end.

End Py.

(** ** Model-assisted extractor: [LLMService.extract_appointment_data] *)

Module LLM.
Import PyStr Re Py.

(** What [_call_llm] hands back: [None] after a backend error, text that
    [json.loads] parses to a value, or text that it rejects. *)
Inductive llm_response : Type :=
| NoResponse
| Json (v : pyval)
| NotJson (raw : string).

(** [if response2:] *)
Definition response_truthy (r : llm_response) : bool :=
  match r with
  | NoResponse => false
  | Json _ => true
  | NotJson raw => negb (String.eqb raw EmptyString)
  end.

(** A parsed JSON object as a dictionary; a repeated key keeps its last
    value. *)
Definition dict_of_items (items : list (string * pyval)) : gmap string pyval :=
  foldl (fun m kv => <[kv.1 := kv.2]> m) ∅ items.

Definition expected_fields : list string :=
  ["patient"; "symptoms"; "date"; "time"; "hospitalId"].

(** Lines 113-117: an absent field and an empty string both become [None]. *)
Definition fill_field (data : gmap string pyval) (field : string) : gmap string pyval :=
  match data !! field with
  | None => <[field := VNone]> data
  | Some v => if py_eq v (VStr EmptyString) then <[field := VNone]> data else data
  end.
Definition fill_fields (data : gmap string pyval) : gmap string pyval :=
  foldl fill_field data expected_fields.

(** Lines 124-130, one field: agreement keeps the first value; a value of
    the second response fills a [None] of the first.  [data[field]] is
    always set here, by [fill_fields]. *)
Definition validate_field (data2 data : gmap string pyval) (field : string)
    : gmap string pyval :=
  match data2 !! field, data !! field with
  | Some v2, Some v1 =>
      if py_eq v2 v1 then data
      else if (negb (is_none v2) && is_none v1)%bool then <[field := v2]> data
      else data
  | _, _ => data
  end.

(** Lines 120-132.  A second response that is empty, is no JSON, or is
    JSON but no object changes nothing: the lookups raise and the bare
    [except] swallows the error before any field is written. *)
Definition cross_validate (response2 : llm_response) (data : gmap string pyval)
    : gmap string pyval :=
  match response2 with
  | Json (VDict items2) => foldl (validate_field (dict_of_items items2)) data expected_fields
  | _ => data
  end.

(** Lines 135-152: [hospitalId] becomes the integer [hospital_id].  The
    handler of line 139 catches [ValueError] and [TypeError]; the
    [OverflowError] of an infinite float passes it. *)
Definition first_digits (s : string) : option Z :=
  capture (Group (plus is_digit)) s ≫= digits_value 0.
Definition to_hospital_id (v : pyval) : outcome pyval :=
  match py_int v with
  | Ok z => Ok (VInt z)
  | Raise ValueError | Raise TypeError =>
      match v with
      | VStr s => Ok (match first_digits s with Some z => VInt z | None => VNone end)
      | _ => Ok VNone
      end
  | Raise e => Raise e
  end.
Definition convert_hospital_id (data : gmap string pyval) : outcome (gmap string pyval) :=
  match data !! "hospitalId" with
  | Some v =>
      if is_none v then Ok (<["hospital_id" := VNone]> data)
      else
        hospital_id ← to_hospital_id v;
        mret (delete "hospitalId" (<["hospital_id" := hospital_id]> data))
  | None => Ok (<["hospital_id" := VNone]> data)
  end.

(** Lines 155-157. *)
Definition add_defaults (data : gmap string pyval) : gmap string pyval :=
  <["alert" := VList []]>
    (<["longitude" := VFloat (Finite 0)]> (<["latitude" := VFloat (Finite 0)]> data)).

(** Lines 163-184: scraping a response that is no JSON. *)
Definition quote_blank_colon (c : ascii) : bool :=
  (Ascii.eqb c "034" || is_space c || Ascii.eqb c ":")%bool.
Definition name_char (c : ascii) : bool :=
  negb (Ascii.eqb c "034" || Ascii.eqb c "," || Ascii.eqb c "010")%bool.
Definition underscore_or_blank (c : ascii) : bool :=
  (Ascii.eqb c "_" || is_space c)%bool.
Definition scrape_patient : regex :=
  seqs [Lit "patient"; plus quote_blank_colon; Group (plus name_char)].
Definition scrape_hospital : regex :=
  seqs [Lit "hospital"; star underscore_or_blank; Lit "id"; plus quote_blank_colon;
        Group (plus is_digit)].

Definition scrape (raw : string) : gmap string pyval :=
  let data :=
    if contains "patient" (lower raw)
    then match capture scrape_patient raw with
         | Some g => <["patient" := VStr (strip g)]> ∅
         | None => ∅
         end
    else ∅ in
  let data :=
    if contains "hospital" (lower raw)
    then match capture scrape_hospital raw ≫= digits_value 0 with
         | Some z => <["hospital_id" := VInt z]> data
         | None => data
         end
    else data in
  add_defaults data.

(** The whole method.  A first response that is missing, or is JSON but no
    object, and a conversion of [hospitalId] that raises, end in the outer
    handler, which returns the empty dictionary. *)
Definition extract_appointment_data (response1 response2 : llm_response)
    : gmap string pyval :=
  match response1 with
  | Json (VDict items1) =>
      let data := fill_fields (dict_of_items items1) in
      let data := if response_truthy response2 then cross_validate response2 data else data in
      match convert_hospital_id data with
      | Ok data => add_defaults data
      | Raise _ => ∅
      end
  | Json _ => ∅
  | NotJson raw => scrape raw
  | NoResponse => ∅
  end.

End LLM.

(** ** The scheduling store: [DatabaseService]

    The store is a table of hospitals and a table of appointments behind a
    server that may be out of reach.  Every method opens a connection of
    its own, so one request can find the server once and miss it the next
    time: [connections] lists the outcomes of the attempts to come, in
    order, and once the list is used up every attempt succeeds.  Every
    method catches what its body raises. *)

Module DB.
Import PyStr Py.

Record appointment : Type := Appointment {
  a_id : Z;
  a_patient : pyval;
  a_phone : pyval;
  a_symptoms : pyval;
  a_latitude : pyval;
  a_longitude : pyval;
  a_date : date;
  a_time : pyval;
  a_hospitalId : Z;
  a_alert : pyval
}.

Record store : Type := Store {
  connections : list bool;
  hospitals : list (Z * string);
  appointments : list appointment;
  next_id : Z
}.

(** [get_connection]: the outcome of this attempt, and the store with the
    attempt behind it. *)
Definition get_connection (st : store) : outcome unit * store :=
  match connections st with
  | [] => (Ok tt, st)
  | opened :: later =>
      (if opened then Ok tt else Raise OperationalError,
       Store later (hospitals st) (appointments st) (next_id st))
  end.

(** Whether the connection attempt number [attempt] from now (the next
    one is number 0) opens. *)
Definition opens (st : store) (attempt : nat) : bool := nth attempt (connections st) true.

(** [SELECT "id", "name" FROM "Hospital" WHERE "id" = %s] and [fetchone] *)
Definition select_hospital (st : store) (hospital_id : Z) : option (Z * string) :=
  List.find (fun h => Z.eqb h.1 hospital_id) (hospitals st).

Definition check_hospital_exists (st : store) (hospital_id : Z)
    : bool * option string * store :=
  let (conn, st') := get_connection st in
  match conn with
  | Ok _ =>
      match select_hospital st hospital_id with
      | Some h => (true, Some h.2, st')
      | None => (false, None, st')
      end
  | Raise _ => (false, None, st')
  end.

(** [parser.parse(date).date()]: the parser wants text. *)
Definition to_date (rt : runtime) (d : pyval) : outcome date :=
  match d with
  | VStr s => match parse_date rt s with Some x => Ok x | None => Raise ValueError end
  | _ => Raise TypeError
  end.

(** The rows an appointment at this hospital, date and time collides with. *)
Definition same_slot (hospital_id : Z) (d : date) (t : string) (a : appointment) : bool :=
  (Z.eqb (a_hospitalId a) hospital_id && date_eqb (a_date a) d && py_eq (a_time a) (VStr t))%bool.
Definition bookings (st : store) (hospital_id : Z) (d : date) (t : string) : nat :=
  length (List.filter (same_slot hospital_id d t) (appointments st)).

(** [SELECT COUNT( * ) ... WHERE "hospitalId" = %s AND "date" = %s AND "time" = %s].
    The ["time"] column is text: comparing it with [NULL] selects no row,
    and comparing it with a value that is no text is an error of the store. *)
Definition count_appointments (st : store) (hospital_id : Z) (d : date) (time : pyval)
    : outcome nat :=
  match time with
  | VStr t => Ok (bookings st hospital_id d t)
  | VNone => Ok O
  | _ => Raise OperationalError
  end.

(** The body of [check_appointment_availability] once the connection
    attempt [conn] is made. *)
Definition availability_query (rt : runtime) (st : store) (conn : outcome unit)
    (hospital_id : Z) (date time : pyval) : outcome bool :=
  _ ← conn;
  date_obj ← to_date rt date;
  count ← count_appointments st hospital_id date_obj time;
  mret (Nat.ltb count 3).

Definition check_appointment_availability (rt : runtime) (st : store)
    (hospital_id : Z) (date time : pyval) : bool * store :=
  let (conn, st') := get_connection st in
  match availability_query rt st conn hospital_id date time with
  | Ok available => (available, st')
  | Raise _ => (false, st')
  end.

(** [appointment_data[key]] *)
Definition item (d : gmap string pyval) (key : string) : outcome pyval :=
  match d !! key with
  | Some v => Ok v
  | None => Raise KeyError
  end.

(** Lines 121-124 of [create_appointment]: a date that is text is parsed
    before the connection is opened; any other value is handed to the
    store as it is. *)
Definition parsed_date (rt : runtime) (d : pyval) : outcome (option date) :=
  match d with
  | VStr s => match parse_date rt s with Some x => Ok (Some x) | None => Raise ValueError end
  | _ => Ok None
  end.

(** The [INSERT] of [create_appointment] once the connection attempt
    [conn] is made: the new identifier and the table with the new row.
    The store refuses a date that is no date. *)
Definition insert_appointment (st : store) (conn : outcome unit) (date_obj : option date)
    (appointment_data : gmap string pyval) : outcome (Z * store) :=
  _ ← conn;
  let latitude := default (VFloat (Finite 0)) (appointment_data !! "latitude") in
  let longitude := default (VFloat (Finite 0)) (appointment_data !! "longitude") in
  let alert := default (VList []) (appointment_data !! "alert") in
  patient ← item appointment_data "patient";
  phone ← item appointment_data "phone";
  symptoms ← item appointment_data "symptoms";
  time ← item appointment_data "time";
  hospital_id ← item appointment_data "hospital_id" ≫= py_int;
  date ← match date_obj with Some x => Ok x | None => Raise OperationalError end;
  let row := Appointment (next_id st) patient phone symptoms latitude longitude
               date time hospital_id alert in
  mret (next_id st,
        Store (connections st) (hospitals st) (appointments st ++ [row]) (next_id st + 1)).

(** [create_appointment]: the identifier, or [None] after any error. *)
Definition create_appointment (rt : runtime) (st : store)
    (appointment_data : gmap string pyval) : option Z * store :=
  match item appointment_data "date" ≫= parsed_date rt with
  | Ok date_obj =>
      let (conn, st') := get_connection st in
      match insert_appointment st' conn date_obj appointment_data with
      | Ok (appointment_id, st'') => (Some appointment_id, st'')
      | Raise _ => (None, st')
      end
  | Raise _ => (None, st)
  end.

End DB.

(** ** Deterministic extractor: the direct capture of [conversation]
    (lines 135-273 of [src/api/routes.py]) *)

Module Extract.
Import PyStr Re Py.

(** *** Name (lines 138-164) *)

Definition name_patterns : list regex :=
  [ seqs [words ["my name is"; "this is"; "i am"; "i'm"; "name is"]; Lit " ";
          Group (plus alpha_or_space)];
    seqs [Group (plus alpha_or_space); Lit " "; Lit "is my name"];
    seqs [Lit "patient"; Opt (Lit "'s"); Lit " name "; Opt (Lit "is"); Lit " ";
          Group (plus alpha_or_space)] ].

Definition stop_words : list string :=
  ["calling"; "here"; "speaking"; "and"; "the"; "to"; "for"; "with"; "hospital";
   "id"; "symptoms"; "date"; "time"].

Definition member (w : string) (ws : list string) : bool :=
  existsb (String.eqb w) ws.

(** [[word for word in raw_name.split() if word not in [...]]] with
    [raw_name = match.group(1).strip()] *)
Definition clean_words (span : string) : list string :=
  List.filter (fun w => negb (member w stop_words)) (split (strip span)).

(** The loop over the templates: the first template that matches and keeps
    a word after cleaning gives the name; a template whose span cleans to
    nothing is passed over. *)
Fixpoint name_from (patterns : list regex) (speech_lower : string) : option string :=
  match patterns with
  | [] => None
  | pattern :: rest =>
      match capture pattern speech_lower with
      | Some span =>
          match clean_words span with
          | [] => name_from rest speech_lower
          | ws => Some (title (join " " ws))
          end
      | None => name_from rest speech_lower
      end
  end.

Definition name_keywords : list string :=
  ["hospital"; "symptom"; "date"; "time"; "appointment"; "book"].

(** Lines 160-161: the whole utterance is short, alphabetic and free of the
    keywords. *)
Definition bare_name (speech_lower : string) : bool :=
  (Nat.leb (length (split speech_lower)) 4
   && forallb isalpha (split speech_lower)
   && negb (existsb (fun keyword => contains keyword speech_lower) name_keywords))%bool.

Definition capture_name (speech_result : string) (d : gmap string pyval)
    : gmap string pyval :=
  let speech_lower := lower speech_result in
  match name_from name_patterns speech_lower with
  | Some name => <["patient" := VStr name]> d
  | None =>
      if bare_name speech_lower
      then <["patient" := VStr (title (strip speech_result))]> d
      else d
  end.

(** *** A category whose first matching template wins (lines 175-219) *)

Fixpoint first_capture (patterns : list regex) (speech_lower : string) : option string :=
  match patterns with
  | [] => None
  | pattern :: rest =>
      match capture pattern speech_lower with
      | Some g => Some (strip g)
      | None => first_capture rest speech_lower
      end
  end.

Definition hospital_patterns : list regex :=
  [ seqs [Lit "hospital "; Opt (words ["id"; "ID"; "number"; "#"]); star is_space;
          Opt (Lit "is"); star is_space; Group (plus is_digit)];
    seqs [Lit "hospital"; Opt (words ["id"; "ID"]); Lit " "; Group (plus is_digit)];
    seqs [words ["id"; "ID"; "number"]; Lit " "; Group (plus is_digit)];
    seqs [Lit "hospital "; Group (plus is_digit)];
    seqs [Lit "the number "; Group (plus is_digit)] ].

(** The capture is a run of digits, so [int] always succeeds on it. *)
Definition capture_hospital (speech_lower : string) (d : gmap string pyval)
    : gmap string pyval :=
  match first_capture hospital_patterns speech_lower ≫= digits_value 0 with
  | Some n => <["hospital_id" := VInt n]> d
  | None => d
  end.

Definition iso_date : regex :=
  seqs [Lit "20"; one is_digit; one is_digit; Lit "-"; upto is_digit 1 2; Lit "-";
        upto is_digit 1 2].
Definition numeric_date : regex :=
  seqs [upto is_digit 1 2; one slash_or_dash; upto is_digit 1 2; one slash_or_dash;
        Lit "20"; one is_digit; one is_digit].
Definition month_date : regex :=
  seqs [plus is_lower; Lit " "; upto is_digit 1 2; Opt (words ["st"; "nd"; "rd"; "th"]);
        Opt (Lit ","); Lit " 20"; one is_digit; one is_digit].

Definition date_patterns : list regex :=
  [ seqs [Lit "date "; Opt (words ["is"; "of"]); Lit " "; Group iso_date];
    Group iso_date;
    seqs [Lit "date "; Opt (words ["is"; "of"]); Lit " "; Group numeric_date];
    Group numeric_date;
    seqs [Lit "date "; Opt (words ["is"; "for"; "on"]); Lit " "; Group month_date];
    seqs [Lit "on "; Group month_date] ].

Definition capture_date (speech_lower : string) (d : gmap string pyval)
    : gmap string pyval :=
  match first_capture date_patterns speech_lower with
  | Some date_str => <["date" := VStr date_str]> d
  | None => d
  end.

Definition clock : regex :=
  seqs [upto is_digit 1 2; Opt (Seq (Lit ":") (Rep is_digit 2 (Some 2) true));
        star is_space].
Definition clock_ampm : regex := Seq clock (words ["am"; "pm"]).
Definition clock_daypart : regex :=
  Seq clock (words ["in the morning"; "in the afternoon"; "in the evening"]).

Definition time_patterns : list regex :=
  [ seqs [Lit "time "; Opt (words ["is"; "at"]); Lit " "; Group clock_ampm];
    Group clock_ampm;
    seqs [Lit "at "; Group clock_ampm];
    seqs [Lit "time "; Opt (words ["is"; "at"]); Lit " "; Group clock_daypart];
    seqs [Group (upto is_digit 1 2); Lit " "; words ["o'clock"; "oclock"]] ].

Definition capture_time (speech_lower : string) (d : gmap string pyval)
    : gmap string pyval :=
  match first_capture time_patterns speech_lower with
  | Some time_str => <["time" := VStr time_str]> d
  | None => d
  end.

(** *** Symptoms (lines 221-273) *)

Definition symptom_markers : list string :=
  ["symptom"; "problem"; "issue"; "reason"; "suffering"; "pain"; "appointment for"].

(** [(.+?)(?:\.|$|date|time|hospital)] *)
Definition until_terminator : regex :=
  Seq (Group (lazy_plus not_newline))
      (alts [Lit "."; Eol; Lit "date"; Lit "time"; Lit "hospital"]).

Definition symptoms_patterns : list regex :=
  [ seqs [Lit "symptom"; Opt (Lit "s"); Lit " "; words ["is"; "are"]; Lit " "; until_terminator];
    seqs [Lit "problem"; Opt (Lit "s"); Lit " "; words ["is"; "are"]; Lit " "; until_terminator];
    seqs [Lit "suffering from "; until_terminator];
    seqs [Lit "reason "; words ["is"; "for"]; Lit " "; until_terminator];
    seqs [Lit "issue "; words ["is"; "with"]; Lit " "; until_terminator];
    seqs [Lit "appointment for "; until_terminator];
    seqs [Lit "i have "; words ["a"; "an"]; Lit " "; until_terminator] ].

Definition marked_symptoms (speech_lower : string) : option string :=
  if existsb (fun marker => contains marker speech_lower) symptom_markers
  then first_capture symptoms_patterns speech_lower
  else None.

Definition common_phrases : list string :=
  ["my name is"; "this is"; "i am"; "i'm"; "name is"; "hospital id"; "date is";
   "time is"; "i need"; "i want"; "to book"; "an appointment"; "appointment for"].

(** [appointment_data['patient'].lower().split()] *)
Definition lower_words (v : pyval) : outcome (list string) :=
  match v with
  | VStr s => Ok (split (lower s))
  | _ => Raise AttributeError
  end.

(** Lines 249-262, once the four other fields are in the draft. *)
Definition words_to_remove (rt : runtime) (patient hospital_id date time : pyval)
    : outcome (list string) :=
  name_words ← lower_words patient;
  mret (name_words
        ++ ["hospital " +:+ py_str rt hospital_id; "hospital id " +:+ py_str rt hospital_id]
        ++ [lower (py_str rt date)]
        ++ [lower (py_str rt time)]
        ++ common_phrases)%list.

(** Lines 265-273. *)
Definition remaining_text (speech_lower : string) (phrases : list string) : string :=
  join " " (split (foldl (fun text phrase => replace phrase " " text) speech_lower phrases)).

Definition capture_symptoms (rt : runtime) (speech_lower : string)
    (d : gmap string pyval) : outcome (gmap string pyval) :=
  match marked_symptoms speech_lower with
  | Some symptoms => Ok (<["symptoms" := VStr symptoms]> d)
  | None =>
      match d !! "patient", d !! "hospital_id", d !! "date", d !! "time" with
      | Some patient, Some hospital_id, Some date, Some time =>
          phrases ← words_to_remove rt patient hospital_id date time;
          let rest := remaining_text speech_lower phrases in
          mret (if Nat.ltb 3 (String.length rest)
                then <["symptoms" := VStr (capitalize rest)]> d
                else d)
      | _, _, _, _ => Ok d
      end
  end.

(** The direct capture, in the order of the source. *)
Definition direct_capture (rt : runtime) (speech_result : string)
    (d : gmap string pyval) : outcome (gmap string pyval) :=
  let speech_lower := lower speech_result in
  capture_symptoms rt speech_lower
    (capture_time speech_lower
       (capture_date speech_lower
          (capture_hospital speech_lower
             (capture_name speech_result d)))).

End Extract.

(** ** The webhooks of [src/api/routes.py] *)

Module Routes.
Import PyStr Re Py LLM DB Extract.

(** An f-string: literal text and the values interpolated into it. *)
Inductive fragment : Type :=
| Txt (s : string)
| Val (v : pyval).

(** The arguments of [twilio_service.create_conversation_response]. *)
Record reply : Type := Reply {
  say : list fragment;
  action_url : option string;
  gather_speech : bool
}.

Inductive role : Type := User | Assistant.
Record turn : Type := Turn { turn_role : role; content : string }.

(** What one webhook request carries: [CallSid], the text that
    [get_speech_result] returns, [To] and [From]. *)
Record request : Type := Request {
  call_sid : option string;
  speech_result : string;
  recipient_number : string;
  caller_number : string
}.

(** The answers of the model backend during one [conversation] turn. *)
Record backend : Type := Backend {
  extraction1 : llm_response;
  extraction2 : llm_response;
  confirmation : option string
}.

(** *** The Flask session

    A signed cookie holding one dictionary.  A request works on the
    dictionary read from the cookie; the cookie is written back only when
    the session was marked modified, which item assignment and [pop] of a
    present key do and a change inside a stored dictionary does not. *)

Inductive session_value : Type :=
| Draft (d : gmap string pyval)
| Flag (b : bool).

Record flask_session : Type := Session {
  data : gmap string session_value;
  modified : bool
}.

Definition open_session (cookie : gmap string session_value) : flask_session :=
  Session cookie false.
Definition session_set (key : string) (v : session_value) (s : flask_session)
    : flask_session :=
  Session (<[key := v]> (data s)) true.
Definition session_pop (key : string) (s : flask_session) : flask_session :=
  Session (delete key (data s))
          (modified s || bool_decide (is_Some (data s !! key))).
Definition mutate_in_place (key : string) (v : session_value) (s : flask_session)
    : flask_session :=
  Session (<[key := v]> (data s)) (modified s).
Definition save_session (cookie : gmap string session_value) (s : flask_session)
    : gmap string session_value :=
  if modified s then data s else cookie.

(** [f"{call_sid}"] *)
Definition sid_text (cs : option string) : string :=
  match cs with
  | Some sid => sid
  | None => "None"
  end.
Definition draft_key (cs : option string) : string := "appointment_data_" +:+ sid_text cs.
Definition flag_key (cs : option string) : string := "confirmation_state_" +:+ sid_text cs.

(** [session.get(f"appointment_data_{call_sid}", {})], then a membership
    test on the result. *)
Definition get_draft (s : flask_session) (cs : option string)
    : outcome (gmap string pyval) :=
  match data s !! draft_key cs with
  | Some (Draft d) => Ok d
  | Some (Flag _) => Raise TypeError
  | None => Ok ∅
  end.

(** *** The state the webhooks share *)

Record world : Type := World {
  conversation_history : gmap (option string) (list turn);
  cookie : gmap string session_value;
  store : DB.store;
  outbox : list (pyval * list fragment)
}.

(** *** Reconciliation with the model-assisted result (lines 282-298) *)

Definition placeholder (value : pyval) : bool :=
  (py_eq value (VStr "null") || py_eq value (VStr "NULL") || py_eq value (VStr "None"))%bool.

Definition merge_item (d : gmap string pyval) (key : string) (value : pyval)
    : outcome (gmap string pyval) :=
  if (negb (is_none value) && negb (py_eq value (VStr EmptyString)))%bool
  then
    if String.eqb key "patient"
    then
      if placeholder value then Ok d
      else
        match d !! key with
        | None => Ok (<[key := value]> d)
        | Some current =>
            if (negb (truthy current) || py_eq current (VStr "null"))%bool
            then Ok (<[key := value]> d)
            else
              n ← py_len value;
              m ← py_len current;
              mret (if Nat.ltb m n then <[key := value]> d else d)
        end
    else
      match d !! key with
      | None => Ok (<[key := value]> d)
      | Some current => if truthy current then Ok d else Ok (<[key := value]> d)
      end
  else Ok d.

Fixpoint merge_items (items : list (string * pyval)) (d : gmap string pyval)
    : outcome (gmap string pyval) :=
  match items with
  | [] => Ok d
  | (key, value) :: rest => d' ← merge_item d key value; merge_items rest d'
  end.

(** [for key, value in extracted_data.items()].  The steps for different
    keys touch different entries, so the order of the items is immaterial. *)
Definition merge (extracted_data d : gmap string pyval) : outcome (gmap string pyval) :=
  merge_items (map_to_list extracted_data) d.

(** Lines 128-298: the draft of the turn, from the stored draft. *)
Definition add_phone (recipient : string) (d : gmap string pyval) : gmap string pyval :=
  match d !! "phone" with
  | Some _ => d
  | None => <["phone" := VStr recipient]> d
  end.

Definition reconcile (rt : runtime) (req : request) (llm : backend)
    (d : gmap string pyval) : outcome (gmap string pyval) :=
  d' ← direct_capture rt (speech_result req) (add_phone (recipient_number req) d);
  merge (extract_appointment_data (extraction1 llm) (extraction2 llm)) d'.

(** *** The dialogue step (lines 306-377) *)

Definition required_fields : list string :=
  ["patient"; "symptoms"; "date"; "time"; "hospital_id"].

(** [field in appointment_data and appointment_data[field]] *)
Definition present (d : gmap string pyval) (field : string) : bool :=
  match d !! field with
  | Some v => truthy v
  | None => false
  end.

Definition missing_fields (d : gmap string pyval) : list string :=
  List.filter (fun field => negb (present d field)) required_fields.

Definition field_prompt (field : string) : outcome string :=
  if String.eqb field "patient"
  then Ok "I still need your full name. Please clearly say: My name is followed by your full name."
  else if String.eqb field "hospital_id"
  then Ok "I need the hospital ID number. Please clearly say: Hospital ID followed by a number between 1 and 10."
  else if String.eqb field "symptoms"
  then Ok "I need to know why you're booking this appointment. Please clearly say: My symptoms are, followed by your health concern."
  else if String.eqb field "date"
  then Ok "I need the date for your appointment. Please clearly say: The date is, followed by a date like 2023-06-15."
  else if String.eqb field "time"
  then Ok "I need the time for your appointment. Please clearly say: The time is, followed by a time like 10:00 AM."
  else Raise UnboundLocalError.

Definition follow_up (missing : list string) : outcome string :=
  match missing with
  | [field] => field_prompt field
  | _ =>
      Ok ("I still need your " +:+ join ", " (removelast missing) +:+ " and "
          +:+ List.last missing EmptyString +:+ ". Please provide this information.")
  end.

Definition opt_str (o : option string) : pyval :=
  match o with
  | Some s => VStr s
  | None => VNone
  end.

(** [llm_service.verify_appointment_details]: the text to speak.  The
    method also writes [hospital_name] into the draft it was handed. *)
Definition verify_appointment_details (d : gmap string pyval)
    (hospital_name : option string) (response : option string) : list fragment :=
  match response with
  | Some text =>
      if negb (String.eqb text EmptyString) then [Txt text]
      else
        [Txt "I'd like to confirm your appointment for ";
         Val (default (VStr "you") (d !! "patient")); Txt " at "; Val (opt_str hospital_name);
         Txt " on "; Val (default (VStr "the specified date") (d !! "date"));
         Txt " at "; Val (default (VStr "the specified time") (d !! "time"));
         Txt " for "; Val (default (VStr "your health concern") (d !! "symptoms"));
         Txt ". Is this correct?"]
  | None =>
      [Txt "I'd like to confirm your appointment for ";
       Val (default (VStr "you") (d !! "patient")); Txt " at "; Val (opt_str hospital_name);
       Txt " on "; Val (default (VStr "the specified date") (d !! "date"));
       Txt " at "; Val (default (VStr "the specified time") (d !! "time"));
       Txt " for "; Val (default (VStr "your health concern") (d !! "symptoms"));
       Txt ". Is this correct?"]
  end.

Definition hospital_unknown (hospital_id : pyval) : reply :=
  Reply [Txt "I'm sorry, the hospital with ID "; Val hospital_id;
         Txt " doesn't exist in our system. Please say a different hospital ID between 1 and 10."]
        None true.

Definition slot_full (time date : pyval) : reply :=
  Reply [Txt "I'm sorry, but the time slot at "; Val time; Txt " on "; Val date;
         Txt " is fully booked. Please suggest a different time."]
        None true.

(** Lines 326-353, once the hospital [id] is found; [s] is the session
    after line 304. *)
Definition check_slot (rt : runtime) (st : DB.store) (cs : option string)
    (response : option string) (d : gmap string pyval) (s : flask_session)
    (id : Z) (hospital_name : option string)
    : outcome (reply * flask_session) * DB.store :=
  match item d "date", item d "time" with
  | Ok date, Ok time =>
      let (is_available, st') := check_appointment_availability rt st id date time in
      if negb is_available
      then
        (Ok (slot_full time date,
             session_set (draft_key cs) (Draft (delete "time" d)) s), st')
      else
        let d' := <["hospital_name" := opt_str hospital_name]> d in
        (Ok (Reply (verify_appointment_details d' hospital_name response)
                   (Some "/api/confirm_appointment") true,
             session_set (flag_key cs) (Flag true)
               (mutate_in_place (draft_key cs) (Draft d') s)), st')
  | Raise e, _ | _, Raise e => (Raise e, st)
  end.

(** Lines 315-353, on a draft with no missing field: the reply and the
    session, or what was raised, and the store with the connection
    attempts of the turn behind it. *)
Definition validate (rt : runtime) (st : DB.store) (cs : option string)
    (response : option string) (d : gmap string pyval) (s : flask_session)
    : outcome (reply * flask_session) * DB.store :=
  match hospital_id ← item d "hospital_id"; id ← py_int hospital_id; mret (hospital_id, id) with
  | Ok (hospital_id, id) =>
      let '(hospital_exists, hospital_name, st') := check_hospital_exists st id in
      if negb hospital_exists
      then
        (Ok (hospital_unknown hospital_id,
             session_set (draft_key cs) (Draft (delete "hospital_id" d)) s), st')
      else check_slot rt st' cs response d s id hospital_name
  | Raise e => (Raise e, st)
  end.

(** The reply of the outermost [except] of [conversation]. *)
Definition apology : reply :=
  Reply [Txt "I'm sorry, I didn't understand that. Could you please try again?"] None true.

Definition with_session (w : world) (history : gmap (option string) (list turn))
    (s : flask_session) : world :=
  World history (save_session (cookie w) s) (store w) (outbox w).
Definition with_store (st : DB.store) (w : world) : world :=
  World (conversation_history w) (cookie w) st (outbox w).

(** [conversation]: one turn of the call. *)
Definition conversation (rt : runtime) (req : request) (llm : backend) (w : world)
    : reply * world :=
  let cs := call_sid req in
  let turns := (default [] (conversation_history w !! cs) ++ [Turn User (speech_result req)])%list in
  let history := <[cs := turns]> (conversation_history w) in
  let s0 := open_session (cookie w) in
  match get_draft s0 cs ≫= reconcile rt req llm with
  | Raise _ => (apology, with_session w history s0)
  | Ok d =>
      let s := session_set (draft_key cs) (Draft d) s0 in
      match missing_fields d with
      | [] =>
          match validate rt (store w) cs (confirmation llm) d s with
          | (Ok (r, s'), st) => (r, with_store st (with_session w history s'))
          | (Raise _, st) => (apology, with_store st (with_session w history s))
          end
      | missing =>
          match follow_up missing with
          | Ok text =>
              (Reply [Txt text] None true,
               with_session w (<[cs := (turns ++ [Turn Assistant text])%list]> history) s)
          | Raise _ => (apology, with_session w history s)
          end
      end
  end.

(** *** [confirm_appointment] *)

Definition unclear : pyval := VDict [("response_type", VStr "unclear")].

(** [llm_service.analyze_user_response] *)
Definition analyze_user_response (response : llm_response) : pyval :=
  match response with
  | Json v => v
  | NotJson _ => unclear
  | NoResponse => unclear
  end.

(** [response_analysis.get('response_type')] *)
Definition response_type (analysis : pyval) : outcome pyval :=
  match analysis with
  | VDict items => Ok (default VNone (dict_of_items items !! "response_type"))
  | _ => Raise AttributeError
  end.

(** Lines 405-408. *)
Definition fix_phone (req : request) (d : gmap string pyval) : gmap string pyval :=
  match d !! "phone" with
  | Some phone =>
      if (negb (truthy phone) || py_eq phone (VStr (caller_number req)))%bool
      then <["phone" := VStr (recipient_number req)]> d
      else d
  | None => <["phone" := VStr (recipient_number req)]> d
  end.

Definition sms_message (d : gmap string pyval) (hospital_name : option string)
    (appointment_id : Z) : list fragment :=
  [Txt "Medicare Appointment Confirmation
Patient: "; Val (default VNone (d !! "patient"));
   Txt "
Date: "; Val (default VNone (d !! "date"));
   Txt "
Time: "; Val (default VNone (d !! "time"));
   Txt "
Hospital: "; Val (opt_str hospital_name);
   Txt "
Symptoms: "; Val (default VNone (d !! "symptoms"));
   Txt "
Appointment ID: "; Val (VInt appointment_id)].

Definition booked (appointment_id : Z) : reply :=
  Reply [Txt "Great! Your appointment has been confirmed. Your appointment ID is ";
         Val (VInt appointment_id);
         Txt ". I've also sent you a text message with the details. Thank you for using Medicare's appointment booking service!"]
        None false.
Definition not_booked : reply :=
  Reply [Txt "I'm sorry, there was a problem creating your appointment. Please try again later or call our office directly."]
        None false.
Definition lost_draft : reply :=
  Reply [Txt "I'm sorry, we seem to have lost your appointment information. Let's start over. What appointment would you like to book?"]
        (Some "/api/conversation") true.
Definition make_changes : reply :=
  Reply [Txt "I understand you want to make changes. What would you like to update about your appointment?"]
        (Some "/api/conversation") true.
Definition cancelled : reply :=
  Reply [Txt "I understand you want to cancel. Your appointment has not been booked. Thank you for calling Medicare."]
        None false.
Definition say_again : reply :=
  Reply [Txt "I'm sorry, I didn't understand your response. Please say 'yes' to confirm the appointment, 'no' to make changes, or 'cancel' to cancel."]
        (Some "/api/confirm_appointment") true.
Definition technical_difficulties : reply :=
  Reply [Txt "I'm sorry, we're experiencing technical difficulties. Please try again later."]
        None false.

(** Lines 424-463: the user confirmed.  [s] holds the draft [d] that
    [create_appointment] is handed. *)
Definition book (rt : runtime) (cs : option string) (d : gmap string pyval)
    (s : flask_session) (w : world) : reply * world :=
  let (created, st) := create_appointment rt (store w) d in
  match created with
  | Some appointment_id =>
      if negb (Z.eqb appointment_id 0)
      then
        match py_int (default VNone (d !! "hospital_id")) with
        | Ok id =>
            let '(_, hospital_name, st') := check_hospital_exists st id in
            match item d "phone" with
            | Ok phone =>
                let s' := session_pop (flag_key cs) (session_pop (draft_key cs) s) in
                (booked appointment_id,
                 World (conversation_history w) (save_session (cookie w) s') st'
                       (outbox w ++ [(phone, sms_message d hospital_name appointment_id)])%list)
            | Raise _ =>
                (not_booked,
                 World (conversation_history w) (save_session (cookie w) s) st' (outbox w))
            end
        | Raise _ =>
            (not_booked,
             World (conversation_history w) (save_session (cookie w) s) st (outbox w))
        end
      else
        (not_booked,
         World (conversation_history w) (save_session (cookie w) s) st (outbox w))
  | None =>
      (not_booked,
       World (conversation_history w) (save_session (cookie w) s) st (outbox w))
  end.

(** A change made to the draft where it lives: inside the session when the
    key was there (the session is not marked modified), in a dictionary of
    its own otherwise. *)
Definition change_in_place (cs : option string) (d : gmap string pyval)
    (s : flask_session) : flask_session :=
  match data s !! draft_key cs with
  | Some _ => mutate_in_place (draft_key cs) (Draft d) s
  | None => s
  end.

Definition confirm_appointment (rt : runtime) (req : request)
    (analysis : llm_response) (w : world) : reply * world :=
  let cs := call_sid req in
  let s0 := open_session (cookie w) in
  match get_draft s0 cs with
  | Raise _ => (technical_difficulties, w)
  | Ok d0 =>
      let d := fix_phone req d0 in
      let s := change_in_place cs d s0 in
      if bool_decide (d = ∅) then (lost_draft, with_session w (conversation_history w) s)
      else
        match response_type (analyze_user_response analysis) with
        | Raise _ => (technical_difficulties, with_session w (conversation_history w) s)
        | Ok kind =>
            if py_eq kind (VStr "confirm") then book rt cs d s w
            else if py_eq kind (VStr "correct")
            then (make_changes,
                  with_session w (conversation_history w) (session_pop (flag_key cs) s))
            else if py_eq kind (VStr "cancel")
            then (cancelled,
                  with_session w (conversation_history w)
                    (session_pop (flag_key cs) (session_pop (draft_key cs) s)))
            else (say_again, with_session w (conversation_history w) s)
        end
  end.

(** *** [call_status] *)

Definition terminal_statuses : list string :=
  ["completed"; "failed"; "busy"; "no-answer"; "canceled"].

Definition is_terminal (status : option string) : bool :=
  match status with
  | Some text => member text terminal_statuses
  | None => false
  end.

Definition call_status (cs : option string) (status : option string) (w : world) : world :=
  if is_terminal status
  then
    with_session w (delete cs (conversation_history w))
      (session_pop (flag_key cs) (session_pop (draft_key cs) (open_session (cookie w))))
  else w.

End Routes.

Import PyStr Re Py LLM DB Extract Routes.

(** ** The rules of the specification, in its own words *)

(** §4.2 and §9: per field, "take agreement, else first non-null, else
    null" over the values the two responses carry. *)
Definition first_non_null (v1 v2 : pyval) : pyval :=
  if is_none v1 then v2 else v1.

(** The value a parsed response carries for a field; an absent field
    carries nothing, which is [None]. *)
Definition carried (items : list (string * pyval)) (field : string) : pyval :=
  default VNone (dict_of_items items !! field).

(** The first response's value as the extractor reads it: an empty string
    counts as [None]. *)
Definition blank_as_none (v : pyval) : pyval :=
  if py_eq v (VStr EmptyString) then VNone else v.

(** The dictionary of the extractor after its cross-validation (line 132). *)
Definition cross_validated (items1 items2 : list (string * pyval)) : gmap string pyval :=
  cross_validate (Json (VDict items2)) (fill_fields (dict_of_items items1)).

(** §4.3, [patient]: the candidates that are refused, and the rule for the
    others. *)
Definition refused (candidate : string) : bool :=
  member candidate [EmptyString; "null"; "NULL"; "None"].
Definition no_patient_yet (current : option pyval) : bool :=
  match current with
  | None => true
  | Some c => (negb (truthy c) || py_eq c (VStr "null"))%bool
  end.
Definition strictly_longer (candidate : string) (current : option pyval) : bool :=
  match current with
  | Some (VStr name) => Nat.ltb (String.length name) (String.length candidate)
  | _ => false
  end.
Definition patient_rule (current : option pyval) (candidate : string) : option pyval :=
  if refused candidate then current
  else if (no_patient_yet current || strictly_longer candidate current)%bool
  then Some (VStr candidate)
  else current.

(** The fields of §4.3 that are filled only when unset. *)
Definition fill_once_fields : list string := ["symptoms"; "date"; "time"; "hospital_id"].

(** The conversion of the cross-validated [hospitalId]: a null stays
    null; an integer stays itself and a boolean becomes 0 or 1; a float is
    cut towards zero, not-a-number becomes null; a run of digits, with a
    minus sign or without, becomes the integer it spells; a text with a
    character that no numeral has (one that is no digit, blank, sign or
    underscore) becomes its first run of digits, or null when it has no
    digit; a list and an object become null.  An infinite float has no
    conversion.  The runs of digits are taken within the 4300 digits
    that CPython converts by default. *)
Definition digit_of (c : ascii) : Z := Z.of_N (N_of_ascii c) - 48.
Inductive spells : string -> Z -> Prop :=
| spells_digit c :
    is_digit c = true -> spells (String c EmptyString) (digit_of c)
| spells_more s z c :
    spells s z -> is_digit c = true ->
    spells (s +:+ String c EmptyString) (10 * z + digit_of c).

Definition cut (q : Q) (z : Z) : Prop :=
  (0 <= q -> inject_Z z <= q /\ q < inject_Z z + 1)%Q
  /\ (q <= 0 -> inject_Z z - 1 < q /\ q <= inject_Z z)%Q.

Definition is_numeral_char (c : ascii) : bool :=
  (is_digit c || is_space c || Ascii.eqb c "+" || Ascii.eqb c "-" || Ascii.eqb c "_")%bool.

Definition not_a_digit (c : ascii) : bool := negb (is_digit c).

Definition begins_with_no_digit (s : string) : Prop :=
  match s with
  | EmptyString => True
  | String c _ => is_digit c = false
  end.

Inductive hospital_id_of : pyval -> pyval -> Prop :=
| id_of_null : hospital_id_of VNone VNone
| id_of_integer z : hospital_id_of (VInt z) (VInt z)
| id_of_boolean b : hospital_id_of (VBool b) (VInt (if b then 1 else 0))
| id_of_float q z : cut q z -> hospital_id_of (VFloat (Finite q)) (VInt z)
| id_of_negative_zero : hospital_id_of (VFloat NegZero) (VInt 0)
| id_of_not_a_number : hospital_id_of (VFloat NaN) VNone
| id_of_numeral s z :
    spells s z -> String.length s <= 4300 -> hospital_id_of (VStr s) (VInt z)
| id_of_negative_numeral s z :
    spells s z -> String.length s <= 4300 ->
    hospital_id_of (VStr (String "-" s)) (VInt (- z))
| id_of_first_digits front run back z :
    all_chars not_a_digit front = true -> spells run z -> String.length run <= 4300 ->
    begins_with_no_digit back ->
    all_chars is_numeral_char (front +:+ run +:+ back) = false ->
    hospital_id_of (VStr (front +:+ run +:+ back)) (VInt z)
| id_of_text_without_digit s :
    all_chars not_a_digit s = true -> hospital_id_of (VStr s) VNone
| id_of_list l : hospital_id_of (VList l) VNone
| id_of_object d : hospital_id_of (VDict d) VNone.

(** §4.1, name.  The words of a span are its maximal runs of characters
    that are no blanks; the name is made of the words that are not in the
    fixed list, each with a capital first letter and small letters after
    it, with single blanks between them. *)
Definition ends_word (s : string) : Prop :=
  match s with
  | EmptyString => True
  | String c _ => is_space c = true
  end.
Definition no_blank (c : ascii) : bool := negb (is_space c).
Inductive words_of : string -> list string -> Prop :=
| words_end : words_of EmptyString []
| words_blank c s ws :
    is_space c = true -> words_of s ws -> words_of (String c s) ws
| words_word w s ws :
    w <> EmptyString -> all_chars no_blank w = true -> ends_word s -> words_of s ws ->
    words_of (w +:+ s) (w :: ws).

Definition fixed_stop_words : list string :=
  ["calling"; "here"; "speaking"; "and"; "the"; "to"; "for"; "with"; "hospital"; "id";
   "symptoms"; "date"; "time"].

Definition capital (c : ascii) : ascii :=
  if between 97 122 c then ascii_of_N (N_of_ascii c - 32) else c.
Definition small (c : ascii) : ascii :=
  if between 65 90 c then ascii_of_N (N_of_ascii c + 32) else c.
Definition title_cased (w : string) : string :=
  match w with
  | EmptyString => EmptyString
  | String c rest => String (capital c) (map_chars small rest)
  end.
Definition kept_words (ws : list string) : list string :=
  List.filter (fun w => negb (bool_decide (w ∈ fixed_stop_words))) ws.
Definition spec_name (ws : list string) : string :=
  join " " (title_cased <$> kept_words ws).

(** §5: a field is present and not empty when the draft holds a value for
    it that is none of the empty values. *)
Inductive empty_value : pyval -> Prop :=
| empty_none : empty_value VNone
| empty_false : empty_value (VBool false)
| empty_integer : empty_value (VInt 0)
| empty_float q : (q == 0)%Q -> empty_value (VFloat (Finite q))
| empty_negative_zero : empty_value (VFloat NegZero)
| empty_text : empty_value (VStr EmptyString)
| empty_list : empty_value (VList [])
| empty_object : empty_value (VDict []).

Definition filled (d : gmap string pyval) (field : string) : Prop :=
  exists v, d !! field = Some v /\ ~ empty_value v.

Definition five_fields : list string :=
  ["patient"; "symptoms"; "date"; "time"; "hospital_id"].

Definition complete (d : gmap string pyval) : Prop :=
  forall field, field ∈ five_fields -> filled d field.

(** The fields the draft lacks, in the order of the list. *)
Definition lacking (d : gmap string pyval) (fields : list string) : Prop :=
  sublist fields five_fields
  /\ forall field, field ∈ fields <-> field ∈ five_fields /\ ~ filled d field.

(** The prompts, word for word. *)
Definition fixed_prompts : list (string * string) :=
  [("patient",
    "I still need your full name. Please clearly say: My name is followed by your full name.");
   ("hospital_id",
    "I need the hospital ID number. Please clearly say: Hospital ID followed by a number between 1 and 10.");
   ("symptoms",
    "I need to know why you're booking this appointment. Please clearly say: My symptoms are, followed by your health concern.");
   ("date",
    "I need the date for your appointment. Please clearly say: The date is, followed by a date like 2023-06-15.");
   ("time",
    "I need the time for your appointment. Please clearly say: The time is, followed by a time like 10:00 AM.")].

Definition list_prompt (init : list string) (last : string) : string :=
  "I still need your " +:+ join ", " init +:+ " and " +:+ last
  +:+ ". Please provide this information.".

Definition asks_another_hospital (hospital_id : pyval) : reply :=
  Reply [Txt "I'm sorry, the hospital with ID "; Val hospital_id;
         Txt " doesn't exist in our system. Please say a different hospital ID between 1 and 10."]
        None true.

Definition asks_another_time (time date : pyval) : reply :=
  Reply [Txt "I'm sorry, but the time slot at "; Val time; Txt " on "; Val date;
         Txt " is fully booked. Please suggest a different time."]
        None true.

(** The draft [d'] is the draft [d] without the field. *)
Definition without (field : string) (d d' : gmap string pyval) : Prop :=
  d' !! field = None /\ forall k, k <> field -> d' !! k = d !! k.

(** §6: the appointments at a hospital, date and time, and their number. *)
Definition at_slot (hospital_id : Z) (d : date) (t : string) (a : appointment) : Prop :=
  a_hospitalId a = hospital_id /\ a_date a = d /\ a_time a = VStr t.

Inductive count_of {A : Type} (P : A -> Prop) : list A -> nat -> Prop :=
| count_nil : count_of P [] 0
| count_hit a l n : P a -> count_of P l n -> count_of P (a :: l) (S n)
| count_miss a l n : ~ P a -> count_of P l n -> count_of P (a :: l) n.

(** The tables of the store are what they were. *)
Definition same_tables (st st' : DB.store) : Prop :=
  hospitals st' = hospitals st /\ appointments st' = appointments st
  /\ next_id st' = next_id st.

(** Whether one step of the merge assigns its value, from the value the
    draft holds under the key. *)
Definition assigns (current : option pyval) (key : string) (value : pyval) : outcome bool :=
  if (negb (is_none value) && negb (py_eq value (VStr EmptyString)))%bool
  then
    if String.eqb key "patient"
    then
      if placeholder value then Ok false
      else
        match current with
        | None => Ok true
        | Some c =>
            if (negb (truthy c) || py_eq c (VStr "null"))%bool then Ok true
            else n ← py_len value; m ← py_len c; mret (Nat.ltb m n)
        end
    else
      match current with
      | None => Ok true
      | Some c => Ok (negb (truthy c))
      end
  else Ok false.


(** ** What a pattern denotes

    [matches r s rest g g']: the pattern [r] can consume the front of [s]
    and leave [rest], taking the text of group 1 from [g] to [g']. *)

Definition within (hi : option nat) (n : nat) : Prop :=
  match hi with
  | Some h => n <= h
  | None => True
  end.

Inductive matches : regex -> string -> string -> option string -> option string -> Prop :=
| matches_lit p s g :
    matches (Lit p) (p +:+ s) s g g
| matches_rep cls lo hi greedy w s g :
    all_chars cls w = true -> lo <= String.length w -> within hi (String.length w) ->
    matches (Rep cls lo hi greedy) (w +:+ s) s g g
| matches_seq r1 r2 s s1 s2 g g1 g2 :
    matches r1 s s1 g g1 -> matches r2 s1 s2 g1 g2 ->
    matches (Seq r1 r2) s s2 g g2
| matches_alt_l r1 r2 s rest g g' :
    matches r1 s rest g g' -> matches (Alt r1 r2) s rest g g'
| matches_alt_r r1 r2 s rest g g' :
    matches r2 s rest g g' -> matches (Alt r1 r2) s rest g g'
| matches_opt_some r s rest g g' :
    matches r s rest g g' -> matches (Opt r) s rest g g'
| matches_opt_none r s g :
    matches (Opt r) s s g g
| matches_group r s rest g g' :
    matches r s rest g g' -> matches (Group r) s rest g (Some (consumed s rest))
| matches_eol s g :
    at_end s = true -> matches Eol s s g g.

(** The property [P] holds of whatever a group of [r] can capture. *)
Fixpoint groups_capture (P : string -> Prop) (r : regex) : Prop :=
  match r with
  | Seq r1 r2 | Alt r1 r2 => groups_capture P r1 /\ groups_capture P r2
  | Opt r1 => groups_capture P r1
  | Group r1 => forall s rest g g', matches r1 s rest g g' -> P (consumed s rest)
  | _ => True
  end.

(** A group that is a run of one class of characters. *)
Definition run_of (cls : ascii -> bool) (span : string) : Prop :=
  all_chars cls span = true /\ span <> EmptyString.

(** ** Sample data for the instances *)

(** A stand-in for [dateutil] on dates written [YYYY-MM-DD]. *)
Fixpoint split_on (sep : ascii) (cur : list ascii) (s : string) : list string :=
  match s with
  | EmptyString => [rev_string cur]
  | String c s' =>
      if Ascii.eqb c sep then rev_string cur :: split_on sep [] s'
      else split_on sep (c :: cur) s'
  end.
Definition iso_parser (s : string) : option date :=
  match split_on "-" [] s with
  | [y; m; d] =>
      match parse_digits y, parse_digits m, parse_digits d with
      | Some y', Some m', Some d' =>
          if ((1 <=? m') && (m' <=? 12) && (1 <=? d') && (d' <=? 31))%Z
          then Some (Date y' m' d') else None
      | _, _, _ => None
      end
  | _ => None
  end.

Definition sample_runtime : runtime :=
  Runtime (fun q => dec_Z (Z.quot (Qnum q) (Zpos (Qden q))) +:+ ".0") iso_parser.

Definition sample_row (id : Z) : appointment :=
  Appointment id (VStr "Ann Lee") (VStr "+15550100") (VStr "cough") (VFloat (Finite 0)) (VFloat (Finite 0))
              (Date 2023 6 15) (VStr "10:00 am") 2 (VList []).

Definition sample_store : DB.store :=
  Store [] [(2%Z, "City Hospital")] [] 1.
Definition full_store : DB.store :=
  Store [] [(2%Z, "City Hospital")] [sample_row 1; sample_row 2; sample_row 3] 4.
Definition offline_store : DB.store :=
  Store [false; false] [(2%Z, "City Hospital")] [] 1.
(** The server answers the first query of the turn and not the second. *)
Definition flapping_store : DB.store :=
  Store [true; false] [(2%Z, "City Hospital")] [] 1.

Definition sample_draft : gmap string pyval :=
  <["patient" := VStr "John Smith"]>
    (<["symptoms" := VStr "headache"]>
       (<["date" := VStr "2023-06-15"]>
          (<["time" := VStr "10:00 am"]>
             (<["hospital_id" := VInt 2]>
                (<["phone" := VStr "+15550100"]> ∅))))).

Definition silent_backend : backend := Backend NoResponse NoResponse None.

Definition sample_request (speech : string) : request :=
  Request (Some "CA1") speech "+15550100" "+15550199".

Definition world_with (d : gmap string pyval) (st : DB.store) : world :=
  World ∅ (<[draft_key (Some "CA1") := Draft d]> ∅) st [].

(** ** Tactics *)

(** A property of one character, by cases on its eight bits. *)
Ltac ascii_cases c :=
  let b0 := fresh in let b1 := fresh in let b2 := fresh in let b3 := fresh in
  let b4 := fresh in let b5 := fresh in let b6 := fresh in let b7 := fresh in
  destruct c as [b0 b1 b2 b3 b4 b5 b6 b7];
  destruct b0, b1, b2, b3, b4, b5, b6, b7; vm_compute; try reflexivity; try discriminate.

(** A draft given in full holds each of the five fields with a value that
    is not empty. *)
Ltac show_complete :=
  let field := fresh "field" in
  let Hf := fresh "Hf" in
  let He := fresh "He" in
  intros field Hf; unfold five_fields in Hf; rewrite !elem_of_cons, elem_of_nil in Hf;
  destruct Hf as [->|[->|[->|[->|[->|[]]]]]]; eexists; (split; [reflexivity|]);
  intros He; inversion He.



(** ** The matcher against what a pattern denotes *)

Lemma append_nil (b : string) : EmptyString +:+ b = b.
Proof. reflexivity. Qed.

Lemma append_cons x (a b : string) : String x a +:+ b = String x (a +:+ b).
Proof. reflexivity. Qed.

Lemma append_assoc (a b c : string) : (a +:+ b) +:+ c = a +:+ (b +:+ c).
Proof. induction a as [|x a IH]; [done|]. by rewrite !append_cons, IH. Qed.

Lemma append_empty_r (a : string) : a +:+ EmptyString = a.
Proof. induction a as [|x a IH]; [done|]. by rewrite append_cons, IH. Qed.

Lemma length_append (a b : string) :
  String.length (a +:+ b) = String.length a + String.length b.
Proof. induction a as [|x a IH]; [done|]. rewrite append_cons. simpl. by rewrite IH. Qed.

Lemma substring_append (w rest : string) :
  String.substring 0 (String.length w) (w +:+ rest) = w.
Proof.
  induction w as [|c w IH]; [by destruct rest|].
  rewrite append_cons. simpl. by rewrite IH.
Qed.

Lemma consumed_append (w rest : string) : consumed (w +:+ rest) rest = w.
Proof.
  unfold consumed. rewrite length_append.
  replace (String.length w + String.length rest - String.length rest)
    with (String.length w) by lia.
  apply substring_append.
Qed.

Lemma lit_sound p s rest : lit p s = Some rest -> s = p +:+ rest.
Proof.
  revert s. induction p as [|a p IH]; intros s H; simpl in H.
  { rewrite append_nil. destruct s; congruence. }
  destruct s as [|b s]; [done|].
  destruct (Ascii.eqb_spec a b) as [->|]; [|done]. by rewrite append_cons, (IH s H).
Qed.

Lemma lit_complete p rest : lit p (p +:+ rest) = Some rest.
Proof.
  induction p as [|a p IH]; [by destruct rest|].
  rewrite append_cons. simpl. by rewrite Ascii.eqb_refl.
Qed.

Lemma rep_sound {R} cls greedy (k : string -> option R) s :
  forall lo hi res,
    rep cls greedy lo hi s k = Some res ->
    exists w rest,
      s = w +:+ rest /\ all_chars cls w = true /\ lo <= String.length w
      /\ within hi (String.length w) /\ k rest = Some res.
Proof.
  induction s as [|c s IH]; intros lo hi res H; simpl in H.
  - destruct lo; [|done]. exists EmptyString, EmptyString.
    repeat split; try done. destruct hi; simpl; lia.
  - assert (forall r, match lo with O => k (String c s) | S _ => None end = Some r ->
              exists w rest, String c s = w +:+ rest /\ all_chars cls w = true
                /\ lo <= String.length w /\ within hi (String.length w) /\ k rest = Some r)
      as Hstop.
    { intros r Hr. destruct lo; [|done]. exists EmptyString, (String c s).
      repeat split; try done. destruct hi; simpl; lia. }
    assert (forall r, cls c = true -> may_take hi = true ->
              rep cls greedy (Nat.pred lo) (Nat.pred <$> hi) s k = Some r ->
              exists w rest, String c s = w +:+ rest /\ all_chars cls w = true
                /\ lo <= String.length w /\ within hi (String.length w) /\ k rest = Some r)
      as Hmore.
    { intros r Hc Hm Hr. destruct (IH _ _ _ Hr) as (w & rest & -> & Hw & Hlo & Hhi & Hk).
      exists (String c w), rest. rewrite append_cons. simpl. rewrite Hc, Hw.
      repeat split; try done; [lia|].
      destruct hi as [[|h]|]; simpl in *; try done. lia. }
    destruct (cls c) eqn:Hc; simpl in H; [|by apply Hstop].
    destruct (may_take hi) eqn:Hm; simpl in H; [|by apply Hstop].
    destruct greedy; unfold orelse in H.
    + destruct (rep cls true (Nat.pred lo) (Nat.pred <$> hi) s k) eqn:Hr.
      * injection H as <-. by apply Hmore.
      * by apply Hstop.
    + destruct (match lo with O => k (String c s) | S _ => None end) eqn:Hs.
      * injection H as <-. by apply Hstop.
      * by apply Hmore.
Qed.

Lemma rep_complete {R} cls greedy (k : string -> option R) w :
  forall lo hi rest res,
    all_chars cls w = true -> lo <= String.length w -> within hi (String.length w) ->
    k rest = Some res ->
    exists res', rep cls greedy lo hi (w +:+ rest) k = Some res'.
Proof.
  induction w as [|c w IH]; intros lo hi rest res Hw Hlo Hhi Hk.
  - simpl in Hlo. assert (lo = 0) as -> by lia. rewrite append_nil.
    destruct rest as [|c rest]; simpl; [eauto|].
    destruct (cls c && may_take hi)%bool; [|eauto].
    destruct greedy; unfold orelse; [|rewrite Hk; eauto].
    destruct (rep cls true _ _ rest k); [eauto|]. rewrite Hk; eauto.
  - simpl in Hw. apply andb_true_iff in Hw as [Hc Hw]. simpl in Hlo, Hhi.
    assert (may_take hi = true) as Hm by (destruct hi as [[|h]|]; simpl in *; [lia|done..]).
    destruct (IH (Nat.pred lo) (Nat.pred <$> hi) rest res Hw) as [res' Hres']; [lia| |done|].
    { destruct hi as [h|]; simpl in *; lia. }
    rewrite append_cons. simpl. rewrite Hc, Hm. simpl.
    destruct greedy; unfold orelse; [by rewrite Hres'; eauto|].
    destruct (match lo with O => _ | S _ => None end); [eauto|]. rewrite Hres'; eauto.
Qed.

Lemma go_sound {R} r :
  forall s g (k : string -> option string -> option R) res,
    go r s g k = Some res ->
    exists rest g', matches r s rest g g' /\ k rest g' = Some res.
Proof.
  induction r as [p|cls lo hi greedy|r1 IH1 r2 IH2|r1 IH1 r2 IH2|r1 IH1|r1 IH1|];
    intros s g k res H; simpl in H.
  - destruct (lit p s) as [rest|] eqn:Hl; [|done]. apply lit_sound in Hl as ->.
    exists rest, g. split; [constructor|done].
  - apply rep_sound in H as (w & rest & -> & Hw & Hlo & Hhi & Hk).
    exists rest, g. split; [by constructor|done].
  - apply IH1 in H as (s1 & g1 & Hm1 & H). apply IH2 in H as (s2 & g2 & Hm2 & H).
    exists s2, g2. split; [by econstructor|done].
  - unfold orelse in H. destruct (go r1 s g k) eqn:H1.
    + injection H as <-. apply IH1 in H1 as (rest & g' & Hm & Hk).
      exists rest, g'. split; [by apply matches_alt_l|done].
    + apply IH2 in H as (rest & g' & Hm & Hk).
      exists rest, g'. split; [by apply matches_alt_r|done].
  - unfold orelse in H. destruct (go r1 s g k) eqn:H1.
    + injection H as <-. apply IH1 in H1 as (rest & g' & Hm & Hk).
      exists rest, g'. split; [by apply matches_opt_some|done].
    + exists s, g. split; [apply matches_opt_none|done].
  - apply IH1 in H as (rest & g' & Hm & Hk).
    exists rest, (Some (consumed s rest)). split; [by econstructor|done].
  - destruct (at_end s) eqn:He; [|done]. exists s, g. split; [by constructor|done].
Qed.

Lemma go_complete {R} r s rest g g' :
  matches r s rest g g' ->
  forall (k : string -> option string -> option R) res,
    k rest g' = Some res -> exists res', go r s g k = Some res'.
Proof.
  induction 1 as [p s g|cls lo hi greedy w s g Hw Hlo Hhi|r1 r2 s s1 s2 g g1 g2 _ IH1 _ IH2
                  |r1 r2 s rest g g' _ IH|r1 r2 s rest g g' _ IH|r s rest g g' _ IH
                  |r s g|r s rest g g' _ IH|s g He];
    intros k res Hk; simpl.
  - rewrite lit_complete. eauto.
  - by eapply (rep_complete cls greedy (fun rest => k rest g)).
  - destruct (IH2 k res Hk) as [res2 H2]. by eapply IH1.
  - destruct (IH k res Hk) as [res1 ->]. simpl. eauto.
  - unfold orelse. destruct (go r1 s g k); [eauto|]. by eapply IH.
  - destruct (IH k res Hk) as [res1 ->]. simpl. eauto.
  - unfold orelse. destruct (go r s g k); eauto.
  - by eapply (IH (fun rest _ => k rest (Some (consumed s rest)))).
  - rewrite He. eauto.
Qed.

Lemma match_at_sound r s g :
  match_at r s = Some g -> exists rest, matches r s rest None g.
Proof.
  intros H. apply go_sound in H as (rest & g' & Hm & [= <-]). eauto.
Qed.

Lemma match_at_complete r s rest g :
  matches r s rest None g -> exists g', match_at r s = Some g'.
Proof.
  intros Hm. by apply (go_complete r s rest None g Hm (fun _ g => Some g) g).
Qed.

(** [search] finds a match exactly when some position has one, and the
    match it reports starts at the leftmost such position. *)
Lemma search_leftmost r s :
  match search r s with
  | Some g =>
      exists pre mid rest,
        s = pre +:+ mid /\ matches r mid rest None g
        /\ forall pre' mid' rest' g',
             s = pre' +:+ mid' -> String.length pre' < String.length pre ->
             ~ matches r mid' rest' None g'
  | None =>
      forall pre mid rest g, s = pre +:+ mid -> ~ matches r mid rest None g
  end.
Proof.
  induction s as [|c s IH]; simpl; unfold orelse.
  - destruct (match_at r EmptyString) as [g|] eqn:Hm.
    + apply match_at_sound in Hm as [rest Hm].
      exists EmptyString, EmptyString, rest. repeat split; [done|]. simpl. lia.
    + intros pre mid rest g Heq Hmatch. destruct pre; [|done]. rewrite append_nil in Heq.
      subst mid. apply match_at_complete in Hmatch as [g' Hg']. congruence.
  - destruct (match_at r (String c s)) as [g|] eqn:Hm.
    + apply match_at_sound in Hm as [rest Hm].
      exists EmptyString, (String c s), rest. repeat split; [done|]. simpl. lia.
    + assert (forall mid rest g, String c s = mid -> ~ matches r mid rest None g) as Hhere.
      { intros mid rest g <- Hmatch. apply match_at_complete in Hmatch as [g' Hg']. congruence. }
      destruct (search r s) as [g|].
      * destruct IH as (pre & mid & rest & -> & Hmatch & Hleft).
        exists (String c pre), mid, rest. repeat split; [done|].
        intros pre' mid' rest' g' Heq Hlen.
        destruct pre' as [|c' pre']; [by apply Hhere|].
        rewrite !append_cons in Heq. injection Heq as <- Heq.
        apply (Hleft pre' mid' rest' g' Heq). simpl in Hlen. lia.
      * intros pre mid rest g Heq.
        destruct pre as [|c' pre]; [by apply Hhere|].
        rewrite append_cons in Heq. injection Heq as <- Heq. by apply (IH pre).
Qed.

Lemma capture_sound r s span :
  capture r s = Some span ->
  exists pre mid rest, s = pre +:+ mid /\ matches r mid rest None (Some span).
Proof.
  unfold capture. intros H. pose proof (search_leftmost r s) as Hs.
  destruct (search r s) as [[g|]|]; [|done..]. injection H as ->.
  destruct Hs as (pre & mid & rest & ? & ? & _). eauto.
Qed.

Lemma group_of_match (P : string -> Prop) r s rest g g' :
  matches r s rest g g' -> groups_capture P r ->
  g' = g \/ exists span, g' = Some span /\ P span.
Proof.
  induction 1 as [| |r1 r2 s s1 s2 g g1 g2 _ IH1 _ IH2| | | | |r s rest g g' Hm _|];
    simpl; intros HP; try (by left); try (by auto); try (by destruct HP; auto).
  - destruct HP as [HP1 HP2].
    destruct (IH2 HP2) as [->|(span & -> & Hs)]; [by apply IH1|]. right. eauto.
  - right. eexists. split; [done|]. by eapply HP.
Qed.

Lemma capture_group (P : string -> Prop) r s span :
  groups_capture P r -> capture r s = Some span -> P span.
Proof.
  intros HP H. apply capture_sound in H as (pre & mid & rest & _ & Hm).
  destruct (group_of_match P _ _ _ _ _ Hm HP) as [[=]|(span' & [= <-] & Hs)]. done.
Qed.


Lemma plus_captures_run cls s rest g g' :
  matches (plus cls) s rest g g' -> run_of cls (consumed s rest).
Proof.
  unfold plus. inversion 1; subst. rewrite consumed_append. split; [done|].
  intros ->. simpl in *. lia.
Qed.

(** ** Characters, blanks and numerals *)

Lemma digit_not_space c : is_digit c = true -> is_space c = false.
Proof. ascii_cases c. Qed.
Lemma digit_not_int_space c : is_digit c = true -> is_int_space c = false.
Proof. ascii_cases c. Qed.
Lemma int_space_space c : is_int_space c = true -> is_space c = true.
Proof. ascii_cases c. Qed.
Lemma letter_not_space c : is_letter c = true -> is_space c = false.
Proof. ascii_cases c. Qed.
Lemma letter_alpha c : is_letter c = true -> is_alpha c = true.
Proof. ascii_cases c. Qed.
Lemma digit_value c : is_digit c = true -> Z.of_N (code c - 48) = digit_of c.
Proof. ascii_cases c. Qed.
Lemma digit_not_sign c : is_digit c = true -> c <> "-"%char /\ c <> "+"%char.
Proof. intros H. split; intros ->; discriminate. Qed.

Lemma all_chars_impl (P Q : ascii -> bool) s :
  (forall c, P c = true -> Q c = true) -> all_chars P s = true -> all_chars Q s = true.
Proof.
  intros HPQ. induction s as [|c s IH]; simpl; [done|].
  rewrite !andb_true_iff. intros [Hc Hs]. auto.
Qed.

Lemma all_chars_append P a b :
  all_chars P (a +:+ b) = (all_chars P a && all_chars P b)%bool.
Proof.
  induction a as [|c a IH]; [done|]. rewrite append_cons. simpl.
  by rewrite IH, andb_assoc.
Qed.

Lemma all_chars_map_chars P f s : all_chars P (map_chars f s) = all_chars (fun c => P (f c)) s.
Proof. induction s as [|c s IH]; simpl; [done|]. by rewrite IH. Qed.

Lemma all_chars_lstrip_by blank P s :
  all_chars P s = true -> all_chars P (lstrip_by blank s) = true.
Proof.
  induction s as [|c s IH]; simpl; [done|]. intros H.
  destruct (blank c); [|done]. apply andb_true_iff in H as [_ H]. auto.
Qed.

Lemma all_chars_rstrip_by blank P s :
  all_chars P s = true -> all_chars P (rstrip_by blank s) = true.
Proof.
  induction s as [|c s IH]; simpl; [done|]. intros H.
  apply andb_true_iff in H as [Hc H]. specialize (IH H).
  destruct (rstrip_by blank s) as [|c' r]; [destruct (blank c); simpl; by rewrite ?Hc|].
  simpl in *. by rewrite Hc.
Qed.

Lemma all_chars_strip_by blank P s :
  all_chars P s = true -> all_chars P (strip_by blank s) = true.
Proof. intros H. by apply all_chars_rstrip_by, all_chars_lstrip_by. Qed.

Lemma all_chars_strip P s : all_chars P s = true -> all_chars P (strip s) = true.
Proof. apply all_chars_strip_by. Qed.

(** What stripping removes is blank: a character class that holds of the
    rest and of every blank holds of the whole text. *)
Lemma lstrip_by_chars blank (P : ascii -> bool) s :
  (forall c, blank c = true -> P c = true) ->
  all_chars P (lstrip_by blank s) = true -> all_chars P s = true.
Proof.
  intros Hb. induction s as [|c s IH]; simpl; [done|].
  destruct (blank c) eqn:Hc; [|done]. intros H. by rewrite (Hb c Hc), IH.
Qed.

Lemma rstrip_by_chars blank (P : ascii -> bool) s :
  (forall c, blank c = true -> P c = true) ->
  all_chars P (rstrip_by blank s) = true -> all_chars P s = true.
Proof.
  intros Hb. induction s as [|c s IH]; simpl; [done|].
  destruct (rstrip_by blank s) as [|c' r] eqn:Hr.
  - destruct (blank c) eqn:Hc; simpl.
    + intros _. by rewrite (Hb c Hc), IH.
    + rewrite andb_true_r. intros ->. by rewrite IH.
  - simpl. intros H. apply andb_true_iff in H as [-> H]. by rewrite IH.
Qed.

Lemma strip_by_chars blank (P : ascii -> bool) s :
  (forall c, blank c = true -> P c = true) ->
  all_chars P (strip_by blank s) = true -> all_chars P s = true.
Proof.
  intros Hb H. apply (lstrip_by_chars blank P s Hb), (rstrip_by_chars blank P _ Hb), H.
Qed.

(** Text without blanks is its own strip. *)
Lemma strip_by_no_blank blank s :
  all_chars (fun c => negb (blank c)) s = true -> strip_by blank s = s.
Proof.
  intros H. unfold strip_by.
  assert (lstrip_by blank s = s) as ->.
  { destruct s as [|c s]; [done|]. simpl in *. apply andb_true_iff in H as [Hc _].
    by destruct (blank c). }
  induction s as [|c s IH]; [done|]. simpl in *. apply andb_true_iff in H as [Hc H].
  rewrite (IH H). destruct s; [|done]. by destruct (blank c).
Qed.

Lemma strip_no_blank s :
  all_chars (fun c => negb (is_space c)) s = true -> strip s = s.
Proof. apply strip_by_no_blank. Qed.

(** *** Runs of digits *)

Lemma digits_value_snoc s c :
  forall acc,
    digits_value acc (s +:+ String c EmptyString)
    = digits_value acc s ≫= fun v =>
        if is_digit c then Some (10 * v + Z.of_N (code c - 48))%Z else None.
Proof.
  induction s as [|a s IH]; intros acc.
  - rewrite append_nil. simpl. by destruct (is_digit c).
  - rewrite append_cons. simpl. destruct (is_digit a); [apply IH|done].
Qed.

Lemma spells_digits s z :
  spells s z ->
  all_chars is_digit s = true /\ s <> EmptyString /\ digits_value 0 s = Some z.
Proof.
  induction 1 as [c Hc|s z c _ (Hd & Hne & Hv) Hc].
  - simpl. rewrite Hc. split; [done|]. split; [done|]. f_equal.
    rewrite (digit_value c Hc). lia.
  - rewrite all_chars_append, Hd. simpl. rewrite Hc. split; [done|]. split.
    + by destruct s.
    + rewrite digits_value_snoc, Hv. simpl. rewrite Hc. by rewrite (digit_value c Hc).
Qed.

Lemma digits_value_digits s :
  forall acc, (0 <= acc)%Z -> all_chars is_digit s = true ->
  exists n, digits_value acc s = Some n /\ (0 <= n)%Z.
Proof.
  induction s as [|c s IH]; intros acc Hacc Hs; simpl in *; [eauto|].
  apply andb_true_iff in Hs as [Hc Hs]. rewrite Hc. apply IH; [lia|done].
Qed.

Lemma drop_underscores_digits s :
  forall prev, all_chars is_digit s = true -> (s <> EmptyString \/ prev = true) ->
  drop_underscores prev s = Some s.
Proof.
  induction s as [|c s IH]; intros prev Hs Hne; simpl in *.
  - by destruct Hne as [?| ->].
  - apply andb_true_iff in Hs as [Hc Hs]. rewrite Hc. rewrite (IH true Hs); [done|by right].
Qed.

Lemma parse_digits_digits s n :
  all_chars is_digit s = true -> s <> EmptyString -> digits_value 0 s = Some n ->
  parse_digits s = Some n.
Proof.
  intros Hd Hne Hn. unfold parse_digits. destruct s as [|c s]; [done|].
  rewrite drop_underscores_digits by (done || by left). exact Hn.
Qed.

(** [int] of a run of digits is the value of the run. *)
Lemma parse_int_digits s n :
  all_chars is_digit s = true -> s <> EmptyString -> digits_value 0 s = Some n ->
  parse_int s = Some n.
Proof.
  intros Hd Hne Hn. unfold parse_int.
  rewrite strip_by_no_blank
    by (eapply all_chars_impl; [|exact Hd]; intros c Hc; by rewrite (digit_not_int_space c Hc)).
  pose proof (parse_digits_digits s n Hd Hne Hn) as Hp.
  destruct s as [|c s]; [done|]. simpl in Hd. apply andb_true_iff in Hd as [Hc _].
  destruct (digit_not_sign c Hc) as [Hm Hp'].
  destruct c as [[] [] [] [] [] [] [] []]; try done.
Qed.

Lemma parse_int_negative s n :
  all_chars is_digit s = true -> s <> EmptyString -> digits_value 0 s = Some n ->
  parse_int (String "-" s) = Some (- n)%Z.
Proof.
  intros Hd Hne Hn. unfold parse_int.
  rewrite strip_by_no_blank.
  - by rewrite (parse_digits_digits s n Hd Hne Hn).
  - simpl. eapply all_chars_impl; [|exact Hd]. intros c Hc.
    by rewrite (digit_not_int_space c Hc).
Qed.

(** [int] accepts digits, blanks, signs and underscores only. *)
Lemma drop_underscores_chars s :
  forall prev t, drop_underscores prev s = Some t -> all_chars is_numeral_char s = true.
Proof.
  induction s as [|c s IH]; intros prev t H; simpl in *; [done|].
  unfold is_numeral_char at 1. destruct (is_digit c) eqn:Hc; simpl.
  - destruct (drop_underscores true s) as [t'|] eqn:Ht; [|done]. by apply (IH true t').
  - destruct (Ascii.eqb_spec c "_") as [->|]; simpl in H; [|done].
    destruct prev; [|done]. by apply (IH false t).
Qed.

Lemma parse_digits_chars s n : parse_digits s = Some n -> all_chars is_numeral_char s = true.
Proof.
  unfold parse_digits. destruct s as [|c s]; [done|].
  destruct (drop_underscores false (String c s)) as [t|] eqn:Ht; [|done].
  intros _. by apply (drop_underscores_chars _ false t).
Qed.

Lemma parse_int_chars s n : parse_int s = Some n -> all_chars is_numeral_char s = true.
Proof.
  unfold parse_int. intros H.
  apply (strip_by_chars is_int_space).
  { intros c Hc. unfold is_numeral_char. by rewrite (int_space_space c Hc), orb_true_r. }
  destruct (strip_by is_int_space s) as [|c t]; [done|].
  assert (forall u, parse_digits u <> None -> all_chars is_numeral_char u = true) as Hd.
  { intros u Hu. destruct (parse_digits u) as [m|] eqn:Hm; [|done]. by apply (parse_digits_chars u m). }
  destruct (Ascii.eqb_spec c "-") as [->|Hm].
  { simpl. apply Hd. by destruct (parse_digits t). }
  destruct (Ascii.eqb_spec c "+") as [->|Hp].
  { simpl. apply Hd. by rewrite H. }
  apply Hd. destruct c as [[] [] [] [] [] [] [] []]; by rewrite ?H.
Qed.

(** *** The first run of digits of a text *)

Lemma rep_digits_run {R} (k : string -> option R) run :
  forall lo back res,
    all_chars is_digit run = true -> begins_with_no_digit back -> lo <= String.length run ->
    k back = Some res ->
    rep is_digit true lo None (run +:+ back) k = Some res.
Proof.
  induction run as [|c run IH]; intros lo back res Hd Hb Hlo Hk.
  - simpl in Hlo. assert (lo = 0) as -> by lia. rewrite append_nil.
    destruct back as [|b back]; simpl; [done|]. simpl in Hb. by rewrite Hb.
  - simpl in Hd. apply andb_true_iff in Hd as [Hc Hd]. rewrite append_cons. simpl.
    rewrite Hc. simpl. rewrite (IH (Nat.pred lo) back res Hd Hb); [done| |done].
    simpl in Hlo. lia.
Qed.

Lemma search_digits front run back :
  all_chars not_a_digit front = true -> all_chars is_digit run = true -> run <> EmptyString ->
  begins_with_no_digit back ->
  capture (Group (plus is_digit)) (front +:+ run +:+ back) = Some run.
Proof.
  intros Hf Hd Hne Hb. unfold capture.
  assert (search (Group (plus is_digit)) (run +:+ back) = Some (Some run)) as Hrun.
  { assert (match_at (Group (plus is_digit)) (run +:+ back) = Some (Some run)) as Hm.
    { unfold match_at, plus. simpl.
      rewrite (rep_digits_run _ run 1 back (Some (consumed (run +:+ back) back)));
        try done.
      - by rewrite consumed_append.
      - destruct run; [done|]. simpl. lia. }
    destruct run as [|c run]; [done|]. rewrite append_cons in *. simpl. by rewrite Hm. }
  induction front as [|c front IH].
  - rewrite append_nil. by rewrite Hrun.
  - simpl in Hf. apply andb_true_iff in Hf as [Hc Hf]. rewrite append_cons. simpl.
    unfold match_at, plus. simpl. unfold not_a_digit in Hc.
    apply negb_true_iff in Hc. rewrite Hc. simpl. by apply IH.
Qed.

(** *** Cutting a rational towards zero *)

Lemma quot_cut q : cut q (Z.quot (Qnum q) (Zpos (Qden q))).
Proof.
  destruct q as [n d]. unfold cut, Qle, Qlt. simpl.
  pose proof (Z.quot_rem' n (Zpos d)) as Hq.
  split; intros Hn.
  - assert (0 <= n)%Z as Hn' by lia.
    pose proof (Z.rem_bound_pos n (Zpos d) Hn' ltac:(lia)). nia.
  - assert (n <= 0)%Z as Hn' by lia.
    pose proof (Z.rem_bound_pos_neg n (Zpos d) ltac:(lia) Hn') as Hr. nia.
Qed.

Lemma cut_unique q z z' : cut q z -> cut q z' -> z = z'.
Proof.
  destruct q as [n d]. unfold cut, Qle, Qlt. simpl. intros [Hp Hn] [Hp' Hn'].
  destruct (Z.le_gt_cases 0 n) as [H|H].
  - destruct Hp as [? ?]; [lia|]. destruct Hp' as [? ?]; [lia|]. nia.
  - destruct Hn as [? ?]; [lia|]. destruct Hn' as [? ?]; [lia|]. nia.
Qed.

(** ** Reconciliation *)

Lemma merge_item_assigns (d : gmap string pyval) key value :
  merge_item d key value =
  (b ← assigns (d !! key) key value; mret (if b : bool then <[key := value]> d else d)).
Proof.
  unfold merge_item, assigns.
  destruct (negb (is_none value) && negb (py_eq value (VStr EmptyString)))%bool; [|done].
  destruct (String.eqb key "patient").
  - destruct (placeholder value); [done|].
    destruct (d !! key) as [c|]; [|done].
    destruct (negb (truthy c) || py_eq c (VStr "null"))%bool; [done|].
    destruct (py_len value); [|done]. destruct (py_len c); [|done]. done.
  - destruct (d !! key) as [c|]; [|done]. by destruct (truthy c).
Qed.

Lemma merge_item_other (d d' : gmap string pyval) key value k :
  merge_item d key value = Ok d' -> k <> key -> d' !! k = d !! k.
Proof.
  rewrite merge_item_assigns. destruct (assigns _ _ _) as [[]|]; simpl; intros [= <-] Hk; [|done].
  by rewrite lookup_insert_ne.
Qed.

Lemma merge_items_lookup (items : list (string * pyval)) :
  forall (d d' : gmap string pyval) k,
    NoDup (items.*1) -> merge_items items d = Ok d' ->
    (forall v, (k, v) ∈ items ->
       exists b : bool, assigns (d !! k) k v = Ok b /\
                 d' !! k = if b then Some v else d !! k) /\
    (k ∉ items.*1 -> d' !! k = d !! k).
Proof.
  induction items as [|[k0 v0] rest IH]; intros d d' k Hnd Hm.
  - simpl in Hm. injection Hm as <-. split; [|done]. intros v Hv. by apply elem_of_nil in Hv.
  - simpl in Hnd. apply NoDup_cons in Hnd as [Hk0 Hnd].
    simpl in Hm. destruct (merge_item d k0 v0) as [d1|] eqn:H1; [|done]. simpl in Hm.
    destruct (IH d1 d' k Hnd Hm) as [IHin IHout].
    split.
    + intros v Hv. apply elem_of_cons in Hv as [[= -> ->]|Hv].
      * rewrite merge_item_assigns in H1.
        destruct (assigns (d !! k0) k0 v0) as [b|]; [|done]. simpl in H1. injection H1 as <-.
        exists b. split; [done|]. rewrite (IHout Hk0).
        destruct b; [by rewrite lookup_insert_eq|done].
      * assert (k <> k0) as Hne.
        { intros ->. apply Hk0. apply list_elem_of_fmap. by exists (k0, v). }
        destruct (IHin v Hv) as (b & Hb & Hd').
        rewrite (merge_item_other _ _ _ _ _ H1 Hne) in Hb, Hd'. eauto.
    + intros Hk. simpl in Hk. apply not_elem_of_cons in Hk as [Hne Hk].
      rewrite (IHout Hk). by eapply merge_item_other.
Qed.

Lemma merge_lookup (extracted_data d d' : gmap string pyval) k :
  merge extracted_data d = Ok d' ->
  match extracted_data !! k with
  | Some v => exists b : bool, assigns (d !! k) k v = Ok b /\
                        d' !! k = if b then Some v else d !! k
  | None => d' !! k = d !! k
  end.
Proof.
  intros Hm. unfold merge in Hm.
  destruct (merge_items_lookup _ d d' k (NoDup_fst_map_to_list extracted_data) Hm) as [Hin Hout].
  destruct (extracted_data !! k) as [v|] eqn:Hk.
  - apply Hin. by apply elem_of_map_to_list.
  - apply Hout. intros Hel. apply list_elem_of_fmap in Hel as ([k' v] & -> & Hel).
    apply elem_of_map_to_list in Hel. simpl in Hk. congruence.
Qed.

Lemma merge_items_returns (items : list (string * pyval)) :
  forall d : gmap string pyval,
    NoDup (items.*1) ->
    (forall k v, (k, v) ∈ items -> exists b, assigns (d !! k) k v = Ok b) ->
    exists d', merge_items items d = Ok d'.
Proof.
  induction items as [|[k0 v0] rest IH]; intros d Hnd Hall; [by eexists|].
  simpl in Hnd. apply NoDup_cons in Hnd as [Hk0 Hnd].
  destruct (Hall k0 v0) as [b Hb]; [by left|].
  simpl. rewrite merge_item_assigns, Hb. simpl.
  apply IH; [done|]. intros k v Hv.
  assert (k <> k0) as Hne.
  { intros ->. apply Hk0. apply list_elem_of_fmap. by exists (k0, v). }
  destruct (Hall k v) as [b' Hb']; [by right|]. exists b'.
  by destruct b; [rewrite lookup_insert_ne|].
Qed.

Lemma merge_returns (extracted_data d : gmap string pyval) :
  (forall k v, extracted_data !! k = Some v -> exists b, assigns (d !! k) k v = Ok b) ->
  exists d', merge extracted_data d = Ok d'.
Proof.
  intros Hall. apply merge_items_returns; [apply NoDup_fst_map_to_list|].
  intros k v Hv. apply Hall. by apply elem_of_map_to_list.
Qed.

Lemma fill_once_not_patient field :
  field ∈ fill_once_fields -> String.eqb field "patient" = false.
Proof.
  unfold fill_once_fields. rewrite !elem_of_cons, elem_of_nil.
  intros [->|[->|[->|[->|[]]]]]; reflexivity.
Qed.

Lemma assigns_filled current key value :
  String.eqb key "patient" = false -> 
  exists b, assigns current key value = Ok b /\
            (forall c, current = Some c -> truthy c = true -> b = false).
Proof.
  intros Hk. unfold assigns. rewrite Hk.
  destruct (negb (is_none value) && negb (py_eq value (VStr EmptyString)))%bool.
  - destruct current as [c|]; eexists; (split; [done|]); intros c' [= <-] Hc.
    by rewrite Hc.
  - by eexists.
Qed.

(** C1, as amended.  For every field among symptoms, date, time and
    hospital_id: a value that the draft holds when the model-assisted merge
    starts, and that Python counts as true (not [None], not empty, not
    zero), is the value the draft holds when the merge ends, whatever the
    model proposed.  (The deterministic capture that runs earlier in the
    turn assigns its match without looking at the draft.) *)
Theorem merge_keeps_filled_fields (extracted_data d d' : gmap string pyval) field v :
  field ∈ fill_once_fields ->
  d !! field = Some v ->
  truthy v = true ->
  merge extracted_data d = Ok d' ->
  d' !! field = Some v.
Proof.
  intros Hf Hv Ht Hm. apply fill_once_not_patient in Hf.
  pose proof (merge_lookup _ _ _ field Hm) as Hl.
  destruct (extracted_data !! field) as [value|]; [|congruence].
  destruct Hl as (b & Hb & ->).
  destruct (assigns_filled (d !! field) field value Hf) as (b' & Hb' & Hfalse).
  rewrite Hb in Hb'. injection Hb' as <-.
  by rewrite (Hfalse v Hv Ht).
Qed.

(** The model proposes another date and other symptoms for a complete
    draft: both stay. *)
Lemma merge_keeps_filled_fields_witness :
  exists d',
    merge (extract_appointment_data
             (Json (VDict [("date", VStr "2024-01-01"); ("symptoms", VStr "fever")]))
             NoResponse) sample_draft = Ok d'
    /\ d' !! "date" = Some (VStr "2023-06-15").
Proof.
  eexists. split; [vm_compute; reflexivity|].
  apply (merge_keeps_filled_fields
           (extract_appointment_data
              (Json (VDict [("date", VStr "2024-01-01"); ("symptoms", VStr "fever")]))
              NoResponse) sample_draft _ "date" (VStr "2023-06-15")).
  - unfold fill_once_fields. set_solver.
  - vm_compute; reflexivity.
  - reflexivity.
  - vm_compute; reflexivity.
Defined.

(** C1 as stated fails: the stored draft holds the date 2023-06-15; the
    caller says "2024-01-01", the model backend answers nothing; after the
    turn the draft holds 2024-01-01, written by the date templates. *)
Lemma turn_overwrites_stored_date :
  sample_draft !! "date" = Some (VStr "2023-06-15")
  /\ (exists d,
        reconcile sample_runtime (sample_request "2024-01-01") silent_backend sample_draft = Ok d
        /\ d !! "date" = Some (VStr "2024-01-01"))
  /\ (exists d,
        cookie (conversation sample_runtime (sample_request "2024-01-01") silent_backend
                  (world_with sample_draft sample_store)).2 !! draft_key (Some "CA1")
        = Some (Draft d)
        /\ d !! "date" = Some (VStr "2024-01-01")).
Proof.
  split; [vm_compute; reflexivity|].
  split; eexists; (split; [vm_compute; reflexivity|vm_compute; reflexivity]).
Qed.

Lemma assigns_patient (current : option pyval) candidate :
  (forall c, current = Some c -> truthy c = true -> exists name, c = VStr name) ->
  exists b : bool,
    assigns current "patient" (VStr candidate) = Ok b
    /\ (if b then Some (VStr candidate) else current) = patient_rule current candidate.
Proof.
  intros Htext. unfold assigns, patient_rule, refused, placeholder, member. simpl.
  destruct (String.eqb candidate EmptyString) eqn:He; simpl; [by exists false|].
  destruct (String.eqb candidate "null"); simpl; [by exists false|].
  destruct (String.eqb candidate "NULL"); simpl; [by exists false|].
  destruct (String.eqb candidate "None"); simpl; [by exists false|].
  destruct current as [c|]; simpl; [|by exists true].
  destruct (truthy c) eqn:Ht; simpl; [|by exists true].
  destruct (py_eq c (VStr "null")); simpl; [by exists true|].
  destruct (Htext c eq_refl Ht) as [name ->]. simpl.
  eexists. split; [done|]. done.
Qed.

(** C2, as amended.  For every candidate patient name (text) that the
    model-assisted extractor returns, and a draft whose patient, when it is
    not empty, is text: the merge returns, and the draft's patient field
    afterwards is given by the rule of §4.3 -- a candidate that is empty or
    one of the literal texts "null", "NULL", "None" leaves the field as it
    was; any other candidate replaces it exactly when the draft has no
    patient yet (missing, empty, or the placeholder "null") or the
    candidate is strictly longer than the current name. *)
Theorem merge_patient_rule (extracted_data d : gmap string pyval) candidate :
  extracted_data !! "patient" = Some (VStr candidate) ->
  (forall c, d !! "patient" = Some c -> truthy c = true -> exists name, c = VStr name) ->
  exists d',
    merge extracted_data d = Ok d'
    /\ d' !! "patient" = patient_rule (d !! "patient") candidate.
Proof.
  intros Hc Htext.
  destruct (merge_returns extracted_data d) as [d' Hm].
  { intros k v Hk. destruct (String.eqb k "patient") eqn:Hkp.
    - apply String.eqb_eq in Hkp as ->. rewrite Hc in Hk. injection Hk as <-.
      destruct (assigns_patient (d !! "patient") candidate Htext) as (b & Hb & _). eauto.
    - destruct (assigns_filled (d !! k) k v Hkp) as (b & Hb & _). eauto. }
  exists d'. split; [done|].
  pose proof (merge_lookup _ _ _ "patient" Hm) as Hl. rewrite Hc in Hl.
  destruct Hl as (b & Hb & ->).
  destruct (assigns_patient (d !! "patient") candidate Htext) as (b' & Hb' & <-).
  rewrite Hb in Hb'. by injection Hb' as <-.
Qed.

(** The draft holds "John"; the model proposes "John Smith", which is
    longer, and replaces it. *)
Lemma merge_patient_rule_witness :
  exists d',
    merge (extract_appointment_data (Json (VDict [("patient", VStr "John Smith")])) NoResponse)
          (<["patient" := VStr "John"]> ∅) = Ok d'
    /\ d' !! "patient" = Some (VStr "John Smith").
Proof.
  destruct (merge_patient_rule
              (extract_appointment_data (Json (VDict [("patient", VStr "John Smith")])) NoResponse)
              (<["patient" := VStr "John"]> ∅) "John Smith") as (d' & Hm & Hp).
  - vm_compute; reflexivity.
  - intros c Hc _. exists "John". rewrite lookup_insert_eq in Hc. congruence.
  - exists d'. split; [exact Hm|]. rewrite Hp. vm_compute; reflexivity.
Defined.

(** C2 as stated fails: the candidate "NULL" is neither "null" nor "None"
    and the draft has no patient, yet the merge does not store it. *)
Lemma upper_case_null_is_refused :
  exists d',
    merge (extract_appointment_data (Json (VDict [("patient", VStr "NULL")])) NoResponse) ∅
    = Ok d'
    /\ d' !! "patient" = None.
Proof.
  eexists. split; vm_compute; reflexivity.
Qed.


(** ** Cross-validation of the two model responses *)

(** A fold of steps that each touch one key only. *)
Lemma foldl_one_key (step : gmap string pyval -> string -> gmap string pyval) :
  (forall m f g, g <> f -> step m f !! g = m !! g) ->
  (forall m m' f, m !! f = m' !! f -> step m f !! f = step m' f !! f) ->
  forall fields m f,
    NoDup fields ->
    foldl step m fields !! f = if bool_decide (f ∈ fields) then step m f !! f else m !! f.
Proof.
  intros Hother Hlocal. induction fields as [|g fields IH]; intros m f Hnd; [done|].
  apply NoDup_cons in Hnd as [Hg Hnd]. simpl. rewrite IH by done.
  destruct (decide (f = g)) as [->|Hne].
  - rewrite (bool_decide_eq_false_2 _ Hg), bool_decide_eq_true_2 by left. done.
  - rewrite (bool_decide_ext (f ∈ g :: fields) (f ∈ fields))
      by (rewrite elem_of_cons; intuition congruence).
    case_bool_decide; [|by apply Hother].
    apply Hlocal. by apply Hother.
Qed.

Lemma expected_fields_nodup : NoDup expected_fields.
Proof. apply (bool_decide_unpack _). vm_compute. exact I. Qed.

Lemma fill_fields_lookup (data : gmap string pyval) field :
  field ∈ expected_fields ->
  fill_fields data !! field = Some (blank_as_none (default VNone (data !! field))).
Proof.
  intros Hf. unfold fill_fields.
  rewrite (foldl_one_key fill_field); [| | |apply expected_fields_nodup].
  - rewrite bool_decide_eq_true_2 by done. unfold fill_field, blank_as_none.
    destruct (data !! field) as [v|] eqn:Hv; simpl; [|by rewrite lookup_insert_eq].
    destruct (py_eq v (VStr EmptyString)); [by rewrite lookup_insert_eq|done].
  - intros m f g Hne. unfold fill_field.
    destruct (m !! f) as [v|]; [destruct (py_eq v _)|]; by rewrite ?lookup_insert_ne.
  - intros m m' f Heq. unfold fill_field. rewrite <- Heq.
    destruct (m !! f) as [v|] eqn:Hv; [destruct (py_eq v _)|]; rewrite ?lookup_insert_eq; congruence.
Qed.

Lemma py_eq_none_l v : py_eq VNone v = is_none v.
Proof. by destruct v. Qed.
Lemma py_eq_none_r v : py_eq v VNone = is_none v.
Proof. by destruct v. Qed.

Lemma validate_field_lookup (data2 data : gmap string pyval) field v1 :
  data !! field = Some v1 ->
  validate_field data2 data field !! field
  = Some (first_non_null v1 (default VNone (data2 !! field))).
Proof.
  intros H1. unfold validate_field, first_non_null. rewrite H1.
  destruct (data2 !! field) as [v2|]; simpl.
  - destruct (py_eq v2 v1) eqn:He.
    + rewrite H1. destruct v1; try done. rewrite py_eq_none_r in He. by destruct v2.
    + destruct (is_none v1) eqn:Hn1.
      * destruct v1; try done. rewrite py_eq_none_r in He. rewrite He. simpl.
        by rewrite lookup_insert_eq.
      * by rewrite andb_false_r.
  - rewrite H1. by destruct v1.
Qed.

Lemma cross_validated_lookup items1 items2 field :
  field ∈ expected_fields ->
  cross_validated items1 items2 !! field
  = Some (first_non_null (blank_as_none (carried items1 field)) (carried items2 field)).
Proof.
  intros Hf. unfold cross_validated, cross_validate, carried.
  rewrite (foldl_one_key (validate_field (dict_of_items items2)));
    [| | |apply expected_fields_nodup].
  - rewrite bool_decide_eq_true_2 by done.
    apply validate_field_lookup. by apply fill_fields_lookup.
  - intros m f g Hne. unfold validate_field.
    destruct (dict_of_items items2 !! f) as [v2|]; [|done].
    destruct (m !! f) as [v1|]; [|done].
    destruct (py_eq v2 v1); [done|]. destruct (_ && _)%bool; by rewrite ?lookup_insert_ne.
  - intros m m' f Heq. unfold validate_field. rewrite <- Heq.
    destruct (dict_of_items items2 !! f) as [v2|]; [|done].
    destruct (m !! f) as [v1|] eqn:Hv; [|congruence].
    destruct (py_eq v2 v1); [congruence|]. destruct (_ && _)%bool; rewrite ?lookup_insert_eq; congruence.
Qed.


Lemma add_defaults_other (data : gmap string pyval) k :
  k <> "alert" -> k <> "longitude" -> k <> "latitude" ->
  add_defaults data !! k = data !! k.
Proof. intros. unfold add_defaults. by rewrite !lookup_insert_ne. Qed.

Lemma parse_int_no_digit s : all_chars not_a_digit s = true -> parse_int s = None.
Proof.
  intros Hs. unfold parse_int.
  pose proof (all_chars_strip_by is_int_space _ _ Hs) as Hstrip.
  assert (forall t, all_chars not_a_digit t = true -> parse_digits t = None) as Hno.
  { intros t Ht. unfold parse_digits. destruct t as [|c t]; [done|]. simpl in *.
    apply andb_true_iff in Ht as [Hc Ht]. unfold not_a_digit in Hc.
    apply negb_true_iff in Hc. rewrite Hc. by rewrite andb_false_r. }
  destruct (strip_by is_int_space s) as [|c t]; [done|].
  assert (all_chars not_a_digit t = true) as Ht
    by (simpl in Hstrip; by apply andb_true_iff in Hstrip as [_ ?]).
  destruct (Ascii.eqb_spec c "-") as [->|Hm]; [by rewrite (Hno t Ht)|].
  destruct (Ascii.eqb_spec c "+") as [->|Hp']; [by apply Hno|].
  transitivity (parse_digits (String c t)); [|by apply Hno].
  destruct c as [[] [] [] [] [] [] [] []]; done.
Qed.

(** The conversion of [hospitalId] as the source makes it. *)
Lemma to_hospital_id_of v id : hospital_id_of v id -> to_hospital_id v = Ok id.
Proof.
  unfold to_hospital_id.
  destruct 1 as [|z|b|q z Hz| | |s z Hs _|s z Hs _|front run back z Hf Hs _ Hb Hn|s Hs|l|d];
    simpl; try done.
  - by rewrite (cut_unique q _ _ (quot_cut q) Hz).
  - apply spells_digits in Hs as (Hd & Hne & Hv). by rewrite (parse_int_digits s z).
  - apply spells_digits in Hs as (Hd & Hne & Hv). by rewrite (parse_int_negative s z).
  - apply spells_digits in Hs as (Hd & Hne & Hv).
    destruct (parse_int (front +:+ run +:+ back)) as [n|] eqn:Hp.
    { apply parse_int_chars in Hp. congruence. }
    unfold first_digits. rewrite (search_digits front run back) by done. simpl. by rewrite Hv.
  - rewrite (parse_int_no_digit s Hs).
    unfold first_digits.
    destruct (capture (Group (plus is_digit)) s) as [span|] eqn:Hc; [|done]. exfalso.
    apply capture_sound in Hc as (pre & mid & rest & -> & Hm).
    inversion Hm as [| | | | | | |? ? ? ? ? Hm'|]; subst.
    unfold plus in Hm'. inversion Hm' as [|? ? ? ? w ? ? Hw Hlen| | | | | | |]; subst.
    rewrite !all_chars_append in Hs. apply andb_true_iff in Hs as [_ Hs].
    apply andb_true_iff in Hs as [Hs _].
    destruct w as [|c w]; [simpl in Hlen; lia|]. simpl in Hw, Hs.
    apply andb_true_iff in Hw as [Hc _]. unfold not_a_digit in Hs. by rewrite Hc in Hs.
Qed.

(** What the extractor returns once the cross-validation has left the
    dictionary [data]. *)
Lemma converted_fields (data : gmap string pyval) v :
  data !! "hospitalId" = Some v ->
  match v with
  | VFloat (Infinite _) => convert_hospital_id data = Raise OverflowError
  | _ =>
      exists data',
        convert_hospital_id data = Ok data'
        /\ (forall id, hospital_id_of v id -> data' !! "hospital_id" = Some id)
        /\ (forall k, k <> "hospital_id" -> k <> "hospitalId" -> data' !! k = data !! k)
  end.
Proof.
  intros Hv. unfold convert_hospital_id. rewrite Hv.
  assert (forall id' : pyval,
            to_hospital_id v = Ok id' ->
            exists data',
              (hospital_id ← to_hospital_id v;
               mret (delete "hospitalId" (<["hospital_id" := hospital_id]> data))) = Ok data'
              /\ (forall id, hospital_id_of v id -> data' !! "hospital_id" = Some id)
              /\ (forall k, k <> "hospital_id" -> k <> "hospitalId" -> data' !! k = data !! k))
    as Hconv.
  { intros id' Hid. rewrite Hid. eexists. split; [done|]. split.
    - intros id Hof. rewrite (to_hospital_id_of v id Hof) in Hid. injection Hid as <-.
      by rewrite lookup_delete_ne, lookup_insert_eq.
    - intros k H1 H2. by rewrite lookup_delete_ne, lookup_insert_ne. }
  destruct v as [|b|z|[q| |negative|]|s|l|d]; simpl.
  - eexists. split; [done|]. split.
    + intros id Hof. inversion Hof. apply lookup_insert_eq.
    + intros k H1 _. by rewrite lookup_insert_ne.
  - by apply (Hconv (VInt (if b then 1 else 0))).
  - by apply (Hconv (VInt z)).
  - by apply (Hconv (VInt (Z.quot (Qnum q) (Zpos (Qden q))))).
  - by apply (Hconv (VInt 0)).
  - done.
  - by apply (Hconv VNone).
  - unfold to_hospital_id in *. simpl in *.
    destruct (parse_int s) as [n|]; [by apply (Hconv (VInt n))|].
    destruct (first_digits s) as [n|]; [by apply (Hconv (VInt n))|by apply (Hconv VNone)].
  - by apply (Hconv VNone).
  - by apply (Hconv VNone).
Qed.

Lemma cross_validated_hospital items1 items2 :
  cross_validated items1 items2 !! "hospitalId"
  = Some (first_non_null (blank_as_none (carried items1 "hospitalId"))
            (carried items2 "hospitalId")).
Proof.
  apply cross_validated_lookup. apply (bool_decide_unpack _). vm_compute. exact I.
Qed.

(** C3, as amended.  For every pair of parsed JSON objects from the two
    backend calls and every expected field, where an empty string in the
    first response counts as null: the value after cross-validation is the
    first response's value unless that is null, and then the second
    response's value ("agreement, else first non-null, else null").  So:
    two equal values give that value; a value carried by one response only
    (the other has null or nothing) gives that value; two different
    non-null values give the first response's.  Unless the value found for
    hospitalId is an infinite float, the extractor returns the value found
    for patient, symptoms, date and time under the field's name, and the
    value found for hospitalId, converted, under the name hospital_id: a
    null stays null, a number becomes its integer (a float cut towards
    zero, not-a-number null), a run of digits the integer it spells, any
    other text its first run of digits or null, a list or an object null.
    When the value found for hospitalId is an infinite float, the
    extractor returns the empty dictionary. *)
Theorem cross_validation_rule items1 items2 field :
  field ∈ expected_fields ->
  let v1 := carried items1 field in
  let v2 := carried items2 field in
  let result := first_non_null (blank_as_none v1) v2 in
  let hospital :=
    first_non_null (blank_as_none (carried items1 "hospitalId")) (carried items2 "hospitalId") in
  let returned := extract_appointment_data (Json (VDict items1)) (Json (VDict items2)) in
  cross_validated items1 items2 !! field = Some result
  /\ (v1 = v2 -> result = v1)
  /\ (v1 <> VNone -> v1 <> VStr EmptyString -> v2 = VNone -> result = v1)
  /\ (blank_as_none v1 = VNone -> v2 <> VNone -> result = v2)
  /\ (v1 <> VNone -> v1 <> VStr EmptyString -> v2 <> VNone -> result = v1)
  /\ ((forall negative, hospital <> VFloat (Infinite negative)) ->
      (field <> "hospitalId" -> returned !! field = Some result)
      /\ (forall id, hospital_id_of hospital id -> returned !! "hospital_id" = Some id))
  /\ (forall negative, hospital = VFloat (Infinite negative) -> returned = ∅).
Proof.
  intros Hf v1 v2 result hospital returned.
  assert (forall v, v <> VNone -> v <> VStr EmptyString -> blank_as_none v = v
                    /\ is_none v = false) as Hkeep.
  { intros v Hn He. unfold blank_as_none. destruct v as [| | | |s| |]; try done.
    simpl. destruct (String.eqb_spec s EmptyString); [congruence|done]. }
  split; [by apply cross_validated_lookup|].
  subst result. unfold first_non_null.
  split; [|split; [|split; [|split]]].
  - intros <-. unfold blank_as_none.
    destruct (py_eq v1 (VStr EmptyString)) eqn:He; [done|].
    by destruct (is_none v1) eqn:Hn; [destruct v1|].
  - intros Hn He _. by destruct (Hkeep v1 Hn He) as [-> ->].
  - by intros -> _.
  - intros Hn He _. by destruct (Hkeep v1 Hn He) as [-> ->].
  - pose proof (cross_validated_hospital items1 items2) as Hh. fold hospital in Hh.
    pose proof (converted_fields _ _ Hh) as Hconv.
    subst returned. unfold extract_appointment_data. cbn [response_truthy].
    fold (cross_validated items1 items2).
    split.
    + intros Hfinite.
      assert (exists data',
                convert_hospital_id (cross_validated items1 items2) = Ok data'
                /\ (forall id, hospital_id_of hospital id -> data' !! "hospital_id" = Some id)
                /\ (forall k, k <> "hospital_id" -> k <> "hospitalId" ->
                      data' !! k = cross_validated items1 items2 !! k))
        as (data' & -> & Hid & Hother).
      { destruct hospital as [| | |[| |negative|]| | |]; try done. by destruct (Hfinite negative). }
      split.
      * intros Hne.
        assert (field <> "alert" /\ field <> "longitude" /\ field <> "latitude"
                /\ field <> "hospital_id") as (?&?&?&?).
        { unfold expected_fields in Hf. rewrite !elem_of_cons, elem_of_nil in Hf.
          destruct Hf as [->|[->|[->|[->|[->|[]]]]]]; repeat split; discriminate. }
        rewrite add_defaults_other, Hother by done. by apply cross_validated_lookup.
      * intros id Hof. rewrite add_defaults_other by done. by apply Hid.
    + intros negative Hinf. rewrite Hinf in Hconv. by rewrite Hconv.
Qed.

(** The first response has a patient, no date and the hospital as text,
    the second a longer patient and a date: the patient of the first and
    the date of the second are returned, and hospital 12. *)
Lemma cross_validation_rule_witness :
  let first := [("patient", VStr "John"); ("hospitalId", VStr "Hospital 12")] in
  let second := [("patient", VStr "John Smith"); ("date", VStr "2023-06-15")] in
  let returned := extract_appointment_data (Json (VDict first)) (Json (VDict second)) in
  returned !! "patient" = Some (VStr "John")
  /\ returned !! "date" = Some (VStr "2023-06-15")
  /\ returned !! "hospital_id" = Some (VInt 12).
Proof.
  intros first second returned.
  assert (forall field, field ∈ expected_fields -> field <> "hospitalId" ->
            returned !! field
            = Some (first_non_null (blank_as_none (carried first field)) (carried second field))
            /\ returned !! "hospital_id" = Some (VInt 12)) as H.
  { intros field Hf Hne.
    destruct (cross_validation_rule first second field Hf) as (_ & _ & _ & _ & _ & Hret & _).
    destruct Hret as [Hfield Hid]; [by intros negative; vm_compute|].
    split; [by apply Hfield|]. apply Hid.
    apply (id_of_first_digits "Hospital " "12" EmptyString 12).
    - reflexivity.
    - apply (spells_more "1" 1 "2"); [|reflexivity]. by apply spells_digit.
    - simpl. lia.
    - exact I.
    - reflexivity. }
  split; [|split].
  - destruct (H "patient") as [-> _]; [|done|done].
    apply (bool_decide_unpack _). vm_compute. exact I.
  - destruct (H "date") as [-> _]; [|done|done].
    apply (bool_decide_unpack _). vm_compute. exact I.
  - destruct (H "date") as [_ ->]; [|done|done].
    apply (bool_decide_unpack _). vm_compute. exact I.
Defined.

(** C3 as stated fails: both responses carry a non-null date, an empty
    string in the first and 2023-06-15 in the second; the values differ,
    and the result is the second response's, not the first's. *)
Lemma empty_first_value_yields_second :
  carried [("date", VStr EmptyString)] "date" = VStr EmptyString
  /\ carried [("date", VStr "2023-06-15")] "date" = VStr "2023-06-15"
  /\ extract_appointment_data (Json (VDict [("date", VStr EmptyString)]))
                              (Json (VDict [("date", VStr "2023-06-15")])) !! "date"
     = Some (VStr "2023-06-15").
Proof. repeat split; vm_compute; reflexivity. Qed.

(** ** The dialogue step *)

Lemma keys_differ cs cs' : flag_key cs <> draft_key cs'.
Proof. unfold flag_key, draft_key. simpl. discriminate. Qed.

(** Python's truth of a value is the specification's "not empty". *)
Lemma truthy_not_empty v : truthy v = true <-> ~ empty_value v.
Proof.
  split.
  - intros Ht He. destruct He as [| | |q Hq| | | |]; try done.
    simpl in Ht. apply negb_true_iff in Ht.
    apply Qeq_bool_iff in Hq. congruence.
  - intros Hne. destruct v as [|[]|z|[q| |negative|]|s|l|d]; simpl; try done.
    + exfalso. apply Hne. constructor.
    + exfalso. apply Hne. constructor.
    + destruct (Z.eqb_spec z 0) as [->|]; [|done]. exfalso. apply Hne. constructor.
    + destruct (Qeq_bool q 0) eqn:Hq; [|done]. exfalso. apply Hne. constructor.
      by apply Qeq_bool_iff.
    + exfalso. apply Hne. constructor.
    + destruct (String.eqb_spec s EmptyString) as [->|]; [|done].
      exfalso. apply Hne. constructor.
    + destruct l; [|done]. exfalso. apply Hne. constructor.
    + destruct d; [|done]. exfalso. apply Hne. constructor.
Qed.

Lemma present_filled (d : gmap string pyval) field : present d field = true <-> filled d field.
Proof.
  unfold present, filled. destruct (d !! field) as [v|].
  - rewrite truthy_not_empty. split; [eauto|]. by intros (v' & [= <-] & ?).
  - split; [done|]. by intros (v & ? & _).
Qed.

Lemma five_fields_nodup : NoDup five_fields.
Proof. apply (bool_decide_unpack _). vm_compute. exact I. Qed.

Lemma sublist_in (x : string) (ms l : list string) : sublist ms l -> x ∈ ms -> x ∈ l.
Proof. intros Hsub Hin. by apply (elem_of_submseteq ms l x Hin), sublist_submseteq. Qed.

(** The sublist of a duplicate-free list that holds exactly the members
    with a property is the list filtered by that property. *)
Lemma sublist_filter (P : string -> bool) (l ms : list string) :
  NoDup l -> sublist ms l -> (forall x, x ∈ ms <-> x ∈ l /\ P x = true) ->
  ms = List.filter P l.
Proof.
  intros Hnd. revert ms. induction Hnd as [|a l Ha Hnd IH]; intros ms Hsub Hmem.
  - by apply sublist_nil_r in Hsub as ->.
  - simpl. apply sublist_cons_r in Hsub as [Hsub|(ms' & -> & Hsub)].
    + assert (P a = false) as ->.
      { destruct (P a) eqn:HP; [|done]. exfalso. apply Ha.
        assert (a ∈ ms) as Hin by (apply Hmem; split; [left|done]).
        by apply (sublist_in a ms l). }
      apply IH; [done|]. intros x. rewrite Hmem, elem_of_cons. split.
      * intros [[->|Hx] HP]; [|done]. exfalso. apply Ha.
        assert (a ∈ ms) as Hin by (apply Hmem; split; [left|done]).
        by apply (sublist_in a ms l).
      * intros [Hx HP]. split; [by right|done].
    + assert (P a = true) as -> by (apply Hmem; left).
      f_equal. apply IH; [done|]. intros x. split.
      * intros Hx. split; [by apply (sublist_in x ms' l)|].
        apply Hmem. by right.
      * intros [Hx HP].
        assert (x ∈ a :: ms') as Hin by (apply Hmem; split; [by right|done]).
        apply elem_of_cons in Hin as [->|Hin]; [done|done].
Qed.

Lemma lacking_missing (d : gmap string pyval) fields :
  lacking d fields -> missing_fields d = fields.
Proof.
  intros [Hsub Hmem]. symmetry. unfold missing_fields.
  apply (sublist_filter _ required_fields); [apply five_fields_nodup|done|].
  intros x. rewrite Hmem. change required_fields with five_fields.
  rewrite negb_true_iff, <- present_filled. destruct (present d x); intuition congruence.
Qed.

Lemma complete_missing (d : gmap string pyval) : complete d -> missing_fields d = [].
Proof.
  intros Hc. apply lacking_missing. split; [apply sublist_nil_l|].
  intros field. rewrite elem_of_nil. split; [done|]. intros [Hf Hn]. by apply Hn, Hc.
Qed.

Lemma complete_item (d : gmap string pyval) field :
  complete d -> field ∈ five_fields -> exists v, d !! field = Some v.
Proof. intros Hc Hf. destruct (Hc field Hf) as (v & Hv & _). eauto. Qed.

Lemma conversation_collected rt req llm w d :
  get_draft (open_session (cookie w)) (call_sid req) ≫= reconcile rt req llm = Ok d ->
  conversation rt req llm w =
  let cs := call_sid req in
  let turns := (default [] (conversation_history w !! cs) ++ [Turn User (speech_result req)])%list in
  let history := <[cs := turns]> (conversation_history w) in
  let s := session_set (draft_key cs) (Draft d) (open_session (cookie w)) in
  match missing_fields d with
  | [] =>
      match validate rt (store w) cs (confirmation llm) d s with
      | (Ok (r, s'), st) => (r, with_store st (with_session w history s'))
      | (Raise _, st) => (apology, with_store st (with_session w history s))
      end
  | missing =>
      match follow_up missing with
      | Ok text =>
          (Reply [Txt text] None true,
           with_session w (<[cs := (turns ++ [Turn Assistant text])%list]> history) s)
      | Raise _ => (apology, with_session w history s)
      end
  end.
Proof. intros H. unfold conversation. by rewrite H. Qed.

(** *** The store behind its connection *)

Lemma get_connection_outcome st :
  (get_connection st).1 = if opens st 0 then Ok tt else Raise OperationalError.
Proof. unfold get_connection, opens. by destruct (connections st) as [|[] later] eqn:Hc. Qed.

Lemma get_connection_tables st : same_tables st (get_connection st).2.
Proof. unfold get_connection, same_tables. by destruct (connections st) eqn:Hc. Qed.

Lemma get_connection_later st attempt :
  opens (get_connection st).2 attempt = opens st (S attempt).
Proof.
  unfold get_connection, opens.
  destruct (connections st) as [|c later] eqn:Hc; simpl; [|done].
  rewrite Hc. by destruct attempt.
Qed.

Lemma select_hospital_none st n :
  (forall name, (n, name) ∉ hospitals st) -> select_hospital st n = None.
Proof.
  intros Hno. unfold select_hospital.
  destruct (List.find _ (hospitals st)) as [[m name]|] eqn:Hf; [|done]. exfalso.
  apply find_some in Hf as [Hin Hm]. simpl in Hm. apply Z.eqb_eq in Hm as ->.
  apply (Hno name). by apply list_elem_of_In.
Qed.

Lemma select_hospital_some st n name :
  (n, name) ∈ hospitals st -> exists h, select_hospital st n = Some h.
Proof.
  intros Hin. unfold select_hospital.
  destruct (List.find _ (hospitals st)) as [h|] eqn:Hf; [eauto|]. exfalso.
  apply list_elem_of_In in Hin. apply (find_none _ _ Hf) in Hin. simpl in Hin.
  by rewrite Z.eqb_refl in Hin.
Qed.

Lemma hospital_absent st n :
  (forall name, (n, name) ∉ hospitals st) ->
  check_hospital_exists st n = (false, None, (get_connection st).2).
Proof.
  intros Hno. unfold check_hospital_exists. rewrite (select_hospital_none st n Hno).
  by destruct (get_connection st) as [[|] st'].
Qed.

Lemma hospital_found st n name :
  opens st 0 = true -> (n, name) ∈ hospitals st ->
  exists name', check_hospital_exists st n = (true, Some name', (get_connection st).2).
Proof.
  intros Ho Hin. destruct (select_hospital_some st n name Hin) as [h Hh].
  exists h.2. unfold check_hospital_exists. rewrite Hh.
  pose proof (get_connection_outcome st) as Hc. rewrite Ho in Hc.
  destruct (get_connection st) as [conn st']. simpl in Hc. by rewrite Hc.
Qed.

(** The check counts the appointments at the slot. *)
Lemma same_slot_at n dt t a : same_slot n dt t a = true <-> at_slot n dt t a.
Proof.
  unfold same_slot, at_slot, date_eqb. rewrite !andb_true_iff, !Z.eqb_eq. split.
  - intros [[Hh ((Hy & Hm) & Hd)] Ht]. repeat split; [done| |].
    + destruct (a_date a), dt. simpl in *. congruence.
    + destruct (a_time a); try done. simpl in Ht. by apply String.eqb_eq in Ht as ->.
  - intros (-> & -> & ->). simpl. by rewrite String.eqb_refl.
Qed.

Lemma filter_count n dt t (l : list appointment) k :
  count_of (at_slot n dt t) l k -> length (List.filter (same_slot n dt t) l) = k.
Proof.
  induction 1 as [|a l k Ha _ IH|a l k Ha _ IH]; simpl; [done|..].
  - apply same_slot_at in Ha as ->. simpl. by rewrite IH.
  - destruct (same_slot n dt t a) eqn:Hs; [|done]. by apply same_slot_at in Hs.
Qed.

Lemma bookings_count st n dt t k :
  count_of (at_slot n dt t) (appointments st) k -> bookings st n dt t = k.
Proof. apply filter_count. Qed.

Lemma availability_answer rt st n ds dt t k :
  opens st 0 = true ->
  parse_date rt ds = Some dt ->
  count_of (at_slot n dt t) (appointments st) k ->
  check_appointment_availability rt st n (VStr ds) (VStr t)
  = (Nat.ltb k 3, (get_connection st).2).
Proof.
  intros Ho Hp Hk. unfold check_appointment_availability.
  pose proof (get_connection_outcome st) as Hc. rewrite Ho in Hc.
  destruct (get_connection st) as [conn st']. simpl in Hc. subst conn.
  unfold availability_query. simpl. rewrite Hp. simpl.
  by rewrite (bookings_count st n dt t k Hk).
Qed.

Lemma availability_raises rt st n date time e :
  availability_query rt st (get_connection st).1 n date time = Raise e ->
  check_appointment_availability rt st n date time = (false, (get_connection st).2).
Proof.
  intros He. unfold check_appointment_availability.
  destruct (get_connection st) as [conn st']. simpl in He. by rewrite He.
Qed.

Lemma availability_unreachable rt st n date time :
  opens st 0 = false ->
  availability_query rt st (get_connection st).1 n date time = Raise OperationalError.
Proof. intros Ho. by rewrite get_connection_outcome, Ho. Qed.

(** *** Validation, branch by branch *)

Lemma validate_unknown_hospital rt st cs response (d : gmap string pyval) s v n :
  d !! "hospital_id" = Some v ->
  py_int v = Ok n ->
  (forall name, (n, name) ∉ hospitals st) ->
  validate rt st cs response d s
  = (Ok (hospital_unknown v, session_set (draft_key cs) (Draft (delete "hospital_id" d)) s),
     (get_connection st).2).
Proof.
  intros Hv Hn Hno. unfold validate, item. rewrite Hv. simpl. rewrite Hn. simpl.
  by rewrite (hospital_absent st n Hno).
Qed.

Lemma validate_slot_full rt st cs response (d : gmap string pyval) s v n name date time :
  d !! "hospital_id" = Some v ->
  py_int v = Ok n ->
  opens st 0 = true -> (n, name) ∈ hospitals st ->
  d !! "date" = Some date ->
  d !! "time" = Some time ->
  let st1 := (get_connection st).2 in
  (check_appointment_availability rt st1 n date time).1 = false ->
  validate rt st cs response d s
  = (Ok (slot_full time date, session_set (draft_key cs) (Draft (delete "time" d)) s),
     (get_connection st1).2).
Proof.
  intros Hv Hn Ho Hin Hd Ht st1 Ha. unfold validate, item. rewrite Hv. simpl. rewrite Hn. simpl.
  destruct (hospital_found st n name Ho Hin) as [name' ->]. simpl.
  unfold check_slot, item. rewrite Hd, Ht. fold st1.
  assert ((check_appointment_availability rt st1 n date time).2 = (get_connection st1).2) as Hst.
  { unfold check_appointment_availability. destruct (get_connection st1) as [conn st2].
    by destruct (availability_query _ _ _ _ _ _). }
  destruct (check_appointment_availability rt st1 n date time) as [available st2].
  simpl in Ha, Hst. by rewrite Ha, Hst.
Qed.

(** What a turn leaves behind when validation sends the caller back to
    collecting with the draft [d']. *)
Lemma back_to_collecting w st history cs (d d' : gmap string pyval) :
  let w' := with_store st
              (with_session w history
                 (session_set (draft_key cs) (Draft d')
                    (session_set (draft_key cs) (Draft d) (open_session (cookie w))))) in
  cookie w' !! draft_key cs = Some (Draft d')
  /\ cookie w' !! flag_key cs = cookie w !! flag_key cs
  /\ store w' = st
  /\ outbox w' = outbox w.
Proof.
  simpl. unfold save_session. simpl. rewrite lookup_insert_eq.
  rewrite !lookup_insert_ne by (intros H; by apply (keys_differ cs cs)).
  done.
Qed.

Lemma without_delete field (d : gmap string pyval) : without field d (delete field d).
Proof. split; [apply lookup_delete_eq|]. intros k Hk. by apply lookup_delete_ne. Qed.

Lemma same_tables_trans st1 st2 st3 :
  same_tables st1 st2 -> same_tables st2 st3 -> same_tables st1 st3.
Proof. unfold same_tables. intros (?&?&?) (?&?&?). repeat split; congruence. Qed.

(** A complete draft whose hospital exists and whose slot is reported
    unavailable: the time is dropped and another one is asked for. *)
Lemma unavailable_slot_drops_time rt req llm w (d : gmap string pyval) v n name date time :
  get_draft (open_session (cookie w)) (call_sid req) ≫= reconcile rt req llm = Ok d ->
  complete d ->
  d !! "hospital_id" = Some v ->
  py_int v = Ok n ->
  opens (store w) 0 = true -> (n, name) ∈ hospitals (store w) ->
  d !! "date" = Some date ->
  d !! "time" = Some time ->
  (check_appointment_availability rt (get_connection (store w)).2 n date time).1 = false ->
  let cs := call_sid req in
  let result := conversation rt req llm w in
  result.1 = slot_full time date
  /\ cookie result.2 !! draft_key cs = Some (Draft (delete "time" d))
  /\ cookie result.2 !! flag_key cs = cookie w !! flag_key cs
  /\ same_tables (store w) (store result.2)
  /\ outbox result.2 = outbox w.
Proof.
  intros H Hm Hv Hn Ho Hin Hd Ht Ha cs result. subst result.
  rewrite (conversation_collected _ _ _ _ _ H). cbv zeta. rewrite (complete_missing d Hm).
  rewrite (validate_slot_full _ _ _ _ _ _ v n name date time Hv Hn Ho Hin Hd Ht Ha).
  destruct (back_to_collecting w (get_connection (get_connection (store w)).2).2
              (<[cs := (default [] (conversation_history w !! cs)
                        ++ [Turn User (speech_result req)])%list]> (conversation_history w))
              cs d (delete "time" d)) as (Hd' & Hf & Hst & Hout).
  cbn [fst snd]. split; [done|]. split; [done|]. split; [done|]. split; [|done].
  unfold with_store. cbn [store]. eapply same_tables_trans; apply get_connection_tables.
Qed.

(** C7.  After reconciliation has produced the draft [d] of the turn.
    When each of patient, symptoms, date, time and hospital_id is present
    with a value that is not empty, the handler's answer is the outcome of
    validation and no follow-up is recorded in the history.  When exactly
    one of them is lacking, the reply is that field's fixed prompt.  When
    several are lacking, the reply is "I still need your A, B and C. Please
    provide this information." over the lacking fields in the order
    patient, symptoms, date, time, hospital_id.  The follow-up is spoken
    with the next utterance going to the conversation route, and it is
    appended to the conversation history. *)
Theorem collecting_step rt req llm w d :
  get_draft (open_session (cookie w)) (call_sid req) ≫= reconcile rt req llm = Ok d ->
  let cs := call_sid req in
  let turns := (default [] (conversation_history w !! cs) ++ [Turn User (speech_result req)])%list in
  let s := session_set (draft_key cs) (Draft d) (open_session (cookie w)) in
  let result := conversation rt req llm w in
  (complete d ->
     conversation_history result.2 !! cs = Some turns
     /\ result.1 = match (validate rt (store w) cs (confirmation llm) d s).1 with
                   | Ok (r, _) => r
                   | Raise _ => apology
                   end)
  /\ (forall field prompt,
        lacking d [field] -> (field, prompt) ∈ fixed_prompts ->
        result.1 = Reply [Txt prompt] None true
        /\ conversation_history result.2 !! cs = Some (turns ++ [Turn Assistant prompt])%list)
  /\ (forall init last,
        lacking d (init ++ [last]) -> init <> [] ->
        result.1 = Reply [Txt (list_prompt init last)] None true
        /\ conversation_history result.2 !! cs
           = Some (turns ++ [Turn Assistant (list_prompt init last)])%list).
Proof.
  intros H cs turns s result.
  subst result. rewrite (conversation_collected _ _ _ _ _ H). cbv zeta.
  fold cs. fold turns. fold s.
  split; [|split].
  - intros Hc. rewrite (complete_missing d Hc).
    destruct (validate _ _ _ _ _ _) as [[[r s']|e] st]; simpl;
      by rewrite lookup_insert_eq.
  - intros field prompt Hl Hp. rewrite (lacking_missing d [field] Hl).
    assert (field_prompt field = Ok prompt) as Hprompt.
    { unfold fixed_prompts in Hp. rewrite !elem_of_cons, elem_of_nil in Hp.
      destruct Hp as [[= -> ->]|[[= -> ->]|[[= -> ->]|[[= -> ->]|[[= -> ->]|[]]]]]]; done. }
    cbn [follow_up]. rewrite Hprompt. simpl. by rewrite lookup_insert_eq.
  - intros init last Hl Hne. rewrite (lacking_missing d _ Hl).
    assert (follow_up (init ++ [last]) = Ok (list_prompt init last)) as Hf.
    { destruct init as [|a init]; [done|]. unfold follow_up, list_prompt.
      rewrite removelast_last, last_last.
      by destruct ((a :: init) ++ [last])%list as [|? [|? ?]] eqn:Heq;
        [destruct init|destruct init; simplify_eq/=|]. }
    destruct init as [|a init]; [done|].
    destruct ((a :: init) ++ [last])%list as [|x [|y rest]] eqn:Heq;
      [done|by destruct init|].
    rewrite Hf. simpl. by rewrite lookup_insert_eq.
Qed.

(** A first turn: only the name is known afterwards, and the four other
    fields are asked for. *)
Lemma collecting_step_witness :
  (conversation sample_runtime (sample_request "My name is John Smith") silent_backend
     (World ∅ ∅ sample_store [])).1
  = Reply [Txt "I still need your symptoms, date, time and hospital_id. Please provide this information."]
          None true.
Proof.
  pose proof (collecting_step sample_runtime (sample_request "My name is John Smith")
                silent_backend (World ∅ ∅ sample_store [])
                (<["patient" := VStr "John Smith"]> (<["phone" := VStr "+15550100"]> ∅)))
    as Hstep.
  cbv zeta in Hstep.
  destruct Hstep as (_ & _ & Hmany); [vm_compute; reflexivity|].
  destruct (Hmany ["symptoms"; "date"; "time"] "hospital_id") as [Hreply _]; [|done|].
  - split.
    + simpl. apply sublist_cons. repeat apply sublist_skip. constructor.
    + intros field. split.
      * intros Hf. simpl in Hf. split.
        -- unfold five_fields. rewrite !elem_of_cons in *. tauto.
        -- intros (v & Hv & _). rewrite !elem_of_cons, elem_of_nil in Hf.
           destruct Hf as [->|[->|[->|[->|[]]]]]; vm_compute in Hv; discriminate.
      * intros [Hf Hn]. unfold five_fields in Hf. rewrite !elem_of_cons, elem_of_nil in Hf.
        destruct Hf as [->|[->|[->|[->|[->|[]]]]]];
          try (apply (bool_decide_unpack _); vm_compute; exact I).
        exfalso. apply Hn. exists (VStr "John Smith"). split; [reflexivity|].
        intros He. inversion He.
  - etrans; [exact Hreply|]. vm_compute. reflexivity.
Defined.

(** ** Validation *)

(** C4.  For every turn whose reconciled draft [d] is complete and whose
    hospital_id denotes an integer [n] with no hospital record [n] in the
    store: the reply is the prompt "I'm sorry, the hospital with ID ...
    doesn't exist in our system. Please say a different hospital ID between
    1 and 10."; the draft stored for the call is [d] without hospital_id,
    every other field as it was; the confirmation flag of the call is not
    touched and the next utterance goes to the conversation route again;
    the tables of the store are what they were and no message is sent. *)
Theorem unknown_hospital_is_dropped rt req llm w (d : gmap string pyval) v n :
  get_draft (open_session (cookie w)) (call_sid req) ≫= reconcile rt req llm = Ok d ->
  complete d ->
  d !! "hospital_id" = Some v ->
  py_int v = Ok n ->
  (forall name, (n, name) ∉ hospitals (store w)) ->
  let cs := call_sid req in
  let result := conversation rt req llm w in
  result.1
  = Reply [Txt "I'm sorry, the hospital with ID "; Val v;
           Txt " doesn't exist in our system. Please say a different hospital ID between 1 and 10."]
          None true
  /\ (exists d', cookie result.2 !! draft_key cs = Some (Draft d')
                 /\ without "hospital_id" d d')
  /\ cookie result.2 !! flag_key cs = cookie w !! flag_key cs
  /\ same_tables (store w) (store result.2)
  /\ outbox result.2 = outbox w.
Proof.
  intros H Hm Hv Hn Hs cs result. subst result.
  rewrite (conversation_collected _ _ _ _ _ H). cbv zeta. rewrite (complete_missing d Hm).
  rewrite (validate_unknown_hospital _ _ _ _ _ _ v n Hv Hn Hs).
  destruct (back_to_collecting w (get_connection (store w)).2
              (<[cs := (default [] (conversation_history w !! cs)
                        ++ [Turn User (speech_result req)])%list]> (conversation_history w))
              cs d (delete "hospital_id" d)) as (Hd & Hf & Hst & Hout).
  cbn [fst snd]. split; [done|]. split; [|split; [done|split; [|done]]].
  - exists (delete "hospital_id" d). split; [exact Hd|]. apply without_delete.
  - unfold with_store. cbn [store]. apply get_connection_tables.
Qed.

(** The caller names hospital 7, which the store does not have. *)
Lemma unknown_hospital_is_dropped_witness :
  (conversation sample_runtime (sample_request "hospital id 7") silent_backend
     (world_with sample_draft sample_store)).1
  = Reply [Txt "I'm sorry, the hospital with ID "; Val (VInt 7);
           Txt " doesn't exist in our system. Please say a different hospital ID between 1 and 10."]
          None true.
Proof.
  apply (unknown_hospital_is_dropped sample_runtime (sample_request "hospital id 7")
           silent_backend (world_with sample_draft sample_store)
           (<["hospital_id" := VInt 7]> sample_draft) (VInt 7) 7).
  - vm_compute. reflexivity.
  - show_complete.
  - reflexivity.
  - reflexivity.
  - intros name Hin. simpl in Hin. rewrite elem_of_cons, elem_of_nil in Hin.
    by destruct Hin as [[=]|[]].
Defined.

(** C5, as amended.  When the store answers the query (the connection
    opens and the date parses), the slot-availability check returns true
    exactly when the store holds fewer than 3 appointments with the same
    hospital id, date and time; with 3 it returns false, and in a turn
    whose draft is complete and whose hospital is found the handler then
    answers that the slot is fully booked, asks for a different time and
    stores the draft without its time. *)
Theorem slot_available_below_three rt req llm w (d : gmap string pyval) v n name ds dt t k :
  parse_date rt ds = Some dt ->
  count_of (at_slot n dt t) (appointments (store w)) k ->
  (opens (store w) 0 = true ->
   ((check_appointment_availability rt (store w) n (VStr ds) (VStr t)).1 = true <-> k < 3)
   /\ (k = 3 -> (check_appointment_availability rt (store w) n (VStr ds) (VStr t)).1 = false))
  /\ (get_draft (open_session (cookie w)) (call_sid req) ≫= reconcile rt req llm = Ok d ->
      complete d ->
      d !! "hospital_id" = Some v ->
      py_int v = Ok n ->
      opens (store w) 0 = true -> (n, name) ∈ hospitals (store w) ->
      opens (store w) 1 = true ->
      d !! "date" = Some (VStr ds) ->
      d !! "time" = Some (VStr t) ->
      3 <= k ->
      let result := conversation rt req llm w in
      result.1
      = Reply [Txt "I'm sorry, but the time slot at "; Val (VStr t); Txt " on "; Val (VStr ds);
               Txt " is fully booked. Please suggest a different time."]
              None true
      /\ (exists d', cookie result.2 !! draft_key (call_sid req) = Some (Draft d')
                     /\ without "time" d d')
      /\ cookie result.2 !! flag_key (call_sid req) = cookie w !! flag_key (call_sid req)
      /\ same_tables (store w) (store result.2)).
Proof.
  intros Hp Hk. split.
  - intros Ho. rewrite (availability_answer _ _ _ _ _ _ _ Ho Hp Hk). simpl.
    split; [apply Nat.ltb_lt|]. by intros ->.
  - intros H Hm Hv Hn Ho Hin Ho' Hd Ht Hfull result.
    destruct (unavailable_slot_drops_time rt req llm w d v n name (VStr ds) (VStr t))
      as (Hr & Hc & Hf & Hst & _); try done.
    { rewrite (availability_answer _ _ _ ds dt t k).
      - simpl. apply Nat.ltb_ge. lia.
      - by rewrite get_connection_later.
      - done.
      - destruct (get_connection_tables (store w)) as (_ & -> & _). done. }
    split; [done|]. split; [|done].
    exists (delete "time" d). split; [done|]. apply without_delete.
Qed.

(** Three bookings at hospital 2 on 2023-06-15 at 10:00 am: the caller
    repeats the time and is asked for another one. *)
Lemma slot_available_below_three_witness :
  (check_appointment_availability sample_runtime sample_store 2
     (VStr "2023-06-15") (VStr "10:00 am")).1 = true
  /\ (conversation sample_runtime (sample_request "10:00 am") silent_backend
        (world_with sample_draft full_store)).1
     = Reply [Txt "I'm sorry, but the time slot at "; Val (VStr "10:00 am"); Txt " on ";
              Val (VStr "2023-06-15"); Txt " is fully booked. Please suggest a different time."]
             None true.
Proof.
  assert (forall id, at_slot 2 (Date 2023 6 15) "10:00 am" (sample_row id)) as Hrow
    by (intros id; by repeat split).
  split.
  - destruct (slot_available_below_three sample_runtime (sample_request "10:00 am")
                silent_backend (world_with sample_draft sample_store) sample_draft (VInt 2) 2
                "City Hospital" "2023-06-15" (Date 2023 6 15) "10:00 am" 0)
      as [Hcheck _]; [reflexivity|constructor|].
    destruct Hcheck as [Hiff _]; [reflexivity|]. apply Hiff. lia.
  - destruct (slot_available_below_three sample_runtime (sample_request "10:00 am")
                silent_backend (world_with sample_draft full_store) sample_draft (VInt 2) 2
                "City Hospital" "2023-06-15" (Date 2023 6 15) "10:00 am" 3)
      as [_ Hturn]; [reflexivity|by repeat constructor|].
    assert (complete sample_draft) as Hcomplete by show_complete.
    assert ((2%Z, "City Hospital") ∈ hospitals full_store) as Hin
      by (simpl; rewrite elem_of_cons; by left).
    destruct (Hturn ltac:(vm_compute; reflexivity) Hcomplete eq_refl eq_refl eq_refl Hin
                eq_refl eq_refl eq_refl ltac:(lia)) as [Hreply _].
    exact Hreply.
Defined.

(** C5 as stated fails: the store holds no appointment at all, so fewer
    than 3 for this slot, but its connection is down and the check
    returns false. *)
Lemma unreachable_store_reports_unavailable :
  count_of (at_slot 2 (Date 2023 6 15) "10:00 am") (appointments offline_store) 0
  /\ parse_date sample_runtime "2023-06-15" = Some (Date 2023 6 15)
  /\ (check_appointment_availability sample_runtime offline_store 2
        (VStr "2023-06-15") (VStr "10:00 am")).1 = false.
Proof. split; [constructor|]. split; vm_compute; reflexivity. Qed.

(** C9.  Whatever the query of the slot-availability check raises (the
    connection, the date parser, the comparison in the store), the check
    returns false.  In a turn whose draft is complete and whose hospital
    was found, a query that raises -- a connection that does not open for
    it is one -- makes the handler answer as for a full slot: it says the
    slot is fully booked and asks for a different time, stores the draft
    without its time, leaves the confirmation flag alone, adds no
    appointment and sends no message. *)
Theorem store_failure_reports_unavailable rt req llm w (d : gmap string pyval)
    v n name date time :
  get_draft (open_session (cookie w)) (call_sid req) ≫= reconcile rt req llm = Ok d ->
  complete d ->
  d !! "hospital_id" = Some v ->
  py_int v = Ok n ->
  opens (store w) 0 = true -> (n, name) ∈ hospitals (store w) ->
  d !! "date" = Some date ->
  d !! "time" = Some time ->
  let st := (get_connection (store w)).2 in
  let raises := exists e, availability_query rt st (get_connection st).1 n date time = Raise e in
  let result := conversation rt req llm w in
  (forall st' e,
     availability_query rt st' (get_connection st').1 n date time = Raise e ->
     (check_appointment_availability rt st' n date time).1 = false)
  /\ (opens (store w) 1 = false -> raises)
  /\ (raises ->
      result.1
      = Reply [Txt "I'm sorry, but the time slot at "; Val time; Txt " on "; Val date;
               Txt " is fully booked. Please suggest a different time."]
              None true
      /\ (exists d', cookie result.2 !! draft_key (call_sid req) = Some (Draft d')
                     /\ without "time" d d')
      /\ cookie result.2 !! flag_key (call_sid req) = cookie w !! flag_key (call_sid req)
      /\ same_tables (store w) (store result.2)
      /\ outbox result.2 = outbox w).
Proof.
  intros H Hm Hv Hn Ho Hin Hd Ht st raises result.
  split; [|split].
  - intros st' e He. by rewrite (availability_raises _ _ _ _ _ _ He).
  - intros Ho'. exists OperationalError. apply availability_unreachable.
    subst st. by rewrite get_connection_later.
  - intros [e He].
    destruct (unavailable_slot_drops_time rt req llm w d v n name date time)
      as (Hr & Hc & Hf & Hst & Hout); try done.
    { fold st. by rewrite (availability_raises _ _ _ _ _ _ He). }
    split; [done|]. split; [|done].
    exists (delete "time" d). split; [done|]. apply without_delete.
Qed.

(** The server answers the hospital lookup and is out of reach for the
    count: the caller is told the slot is full. *)
Lemma store_failure_reports_unavailable_witness :
  (conversation sample_runtime (sample_request "10:00 am") silent_backend
     (world_with sample_draft flapping_store)).1
  = Reply [Txt "I'm sorry, but the time slot at "; Val (VStr "10:00 am"); Txt " on ";
           Val (VStr "2023-06-15"); Txt " is fully booked. Please suggest a different time."]
          None true.
Proof.
  assert (complete sample_draft) as Hcomplete by show_complete.
  assert ((2%Z, "City Hospital") ∈ hospitals flapping_store) as Hin
    by (simpl; rewrite elem_of_cons; by left).
  destruct (store_failure_reports_unavailable sample_runtime (sample_request "10:00 am")
              silent_backend (world_with sample_draft flapping_store) sample_draft
              (VInt 2) 2 "City Hospital" (VStr "2023-06-15") (VStr "10:00 am")
              ltac:(vm_compute; reflexivity) Hcomplete eq_refl eq_refl eq_refl Hin
              eq_refl eq_refl)
    as (_ & Hraises & Hturn).
  destruct (Hturn (Hraises eq_refl)) as [Hreply _]. exact Hreply.
Defined.

(** ** End of a call *)

Lemma save_pops (c : gmap string session_value) k1 k2 :
  save_session c (session_pop k2 (session_pop k1 (open_session c)))
  = delete k2 (delete k1 c).
Proof.
  unfold save_session, session_pop, open_session. simpl.
  destruct (bool_decide (is_Some (c !! k1))) eqn:H1; simpl; [done|].
  destruct (bool_decide (is_Some (delete k1 c !! k2))) eqn:H2; simpl; [done|].
  apply bool_decide_eq_false in H1, H2. rewrite <- eq_None_not_Some in H1, H2.
  by rewrite (delete_id _ _ H2), (delete_id _ _ H1).
Qed.

Lemma call_status_terminal cs status w :
  is_terminal status = true ->
  call_status cs status w
  = World (delete cs (conversation_history w))
          (delete (flag_key cs) (delete (draft_key cs) (cookie w)))
          (store w) (outbox w).
Proof.
  intros H. unfold call_status, with_session. by rewrite H, save_pops.
Qed.

(** C8.  For every call id and every state of the registry and the
    session: a terminal call-status signal (completed, failed, busy,
    no-answer, canceled) removes the call's conversation history, its draft
    and its confirmation flag; a second terminal signal for the same call
    changes nothing.  The handler is a total function: it has no failing
    path. *)
Theorem call_status_twice cs status status' w :
  is_terminal status = true ->
  is_terminal status' = true ->
  let ended := call_status cs status w in
  conversation_history ended !! cs = None
  /\ cookie ended !! draft_key cs = None
  /\ cookie ended !! flag_key cs = None
  /\ call_status cs status' ended = ended.
Proof.
  intros H H'. cbv zeta.
  rewrite (call_status_terminal _ _ _ H'), (call_status_terminal _ _ _ H). simpl.
  split; [apply lookup_delete_eq|].
  split; [rewrite lookup_delete_ne by apply keys_differ; apply lookup_delete_eq|].
  split; [apply lookup_delete_eq|].
  f_equal.
  - apply delete_delete_eq.
  - rewrite (delete_delete _ (draft_key cs) (flag_key cs)).
    by rewrite !delete_delete_eq.
Qed.

(** A call with a history, a draft and a pending confirmation ends with
    "completed" and then "canceled". *)
Lemma call_status_twice_witness :
  let w := World (<[Some "CA1" := [Turn User "yes"]]> ∅)
                 (<[flag_key (Some "CA1") := Flag true]>
                    (<[draft_key (Some "CA1") := Draft sample_draft]> ∅))
                 sample_store [] in
  call_status (Some "CA1") (Some "canceled") (call_status (Some "CA1") (Some "completed") w)
  = call_status (Some "CA1") (Some "completed") w.
Proof.
  cbv zeta.
  apply (call_status_twice (Some "CA1") (Some "completed") (Some "canceled")); reflexivity.
Defined.

(** ** Confirmation *)

Lemma py_eq_text kind text : py_eq kind (VStr text) = true -> kind = VStr text.
Proof.
  destruct kind; try done. simpl. intros H. by apply String.eqb_eq in H as ->.
Qed.

Lemma fix_phone_not_empty req (d : gmap string pyval) : fix_phone req d <> ∅.
Proof.
  intros H. assert (fix_phone req d !! "phone" = None) as Hn by (by rewrite H).
  unfold fix_phone in Hn. destruct (d !! "phone") as [p|] eqn:Hp.
  - destruct (_ || _)%bool; [by rewrite lookup_insert_eq in Hn|congruence].
  - by rewrite lookup_insert_eq in Hn.
Qed.

Lemma change_in_place_unsaved w cs d :
  save_session (cookie w) (change_in_place cs d (open_session (cookie w))) = cookie w.
Proof. unfold change_in_place. simpl. by destruct (cookie w !! draft_key cs). Qed.

Lemma change_in_place_draft w cs d x :
  cookie w !! draft_key cs = Some x ->
  data (change_in_place cs d (open_session (cookie w))) !! draft_key cs = Some (Draft d).
Proof.
  intros H. unfold change_in_place. simpl. rewrite H. simpl. apply lookup_insert_eq.
Qed.

Lemma book_keeps_or_clears rt cs d w :
  let created := (create_appointment rt (store w) d).1 in
  let result := book rt cs d (change_in_place cs d (open_session (cookie w))) w in
  ((created = None \/ created = Some 0%Z) ->
     result.1 = not_booked /\ cookie result.2 = cookie w /\ outbox result.2 = outbox w)
  /\ (cookie result.2 = cookie w \/ exists id, created = Some id /\ id <> 0%Z).
Proof.
  cbv zeta. unfold book.
  destruct (create_appointment rt (store w) d) as [[id|] st]; simpl.
  - destruct (Z.eqb_spec id 0) as [->|Hid]; simpl.
    + rewrite change_in_place_unsaved. split; [done|]. by left.
    + split; [intros [|[=]]; done|]. right. by exists id.
  - rewrite change_in_place_unsaved. split; [done|]. by left.
Qed.

(** C10.  In the confirmation turn of a call whose session holds a draft
    or nothing: when the caller's answer is classified as confirm and
    [create_appointment] returns no identifier (it returns [None] after any
    error it catches; an identifier of 0 counts as none), the reply is the
    apology for the failed booking and the session -- draft and
    confirmation flag alike -- is what it was, and no text message is
    sent.  And whenever the turn removes a stored draft from the session,
    either the answer was classified as confirm and an identifier was
    returned, or it was classified as cancel. *)
Theorem failed_booking_keeps_session rt req analysis w d0 :
  get_draft (open_session (cookie w)) (call_sid req) = Ok d0 ->
  let cs := call_sid req in
  let created := (create_appointment rt (store w) (fix_phone req d0)).1 in
  let result := confirm_appointment rt req analysis w in
  (forall kind,
     response_type (analyze_user_response analysis) = Ok kind ->
     py_eq kind (VStr "confirm") = true ->
     created = None \/ created = Some 0%Z ->
     result.1 = not_booked
     /\ cookie result.2 = cookie w
     /\ outbox result.2 = outbox w)
  /\ (forall x,
        cookie w !! draft_key cs = Some x ->
        cookie result.2 !! draft_key cs = None ->
        exists kind,
          response_type (analyze_user_response analysis) = Ok kind
          /\ ((py_eq kind (VStr "confirm") = true /\ exists id, created = Some id /\ id <> 0%Z)
              \/ kind = VStr "cancel")).
Proof.
  intros Hg cs created result. subst result created. unfold confirm_appointment.
  rewrite Hg. cbv zeta. fold cs.
  rewrite bool_decide_eq_false_2 by apply fix_phone_not_empty.
  pose proof (book_keeps_or_clears rt cs (fix_phone req d0) w) as Hbook. cbv zeta in Hbook.
  destruct Hbook as [Hfail Hclear].
  split.
  - intros kind Hk Hc Hcreated. rewrite Hk, Hc. by apply Hfail.
  - intros x Hx Hgone.
    destruct (response_type (analyze_user_response analysis)) as [kind|] eqn:Hk.
    2:{ simpl in Hgone. rewrite change_in_place_unsaved in Hgone. congruence. }
    exists kind. split; [done|].
    destruct (py_eq kind (VStr "confirm")) eqn:Hc.
    { left. split; [done|]. destruct Hclear as [Hsame|Hid]; [|done].
      rewrite Hsame in Hgone. congruence. }
    destruct (py_eq kind (VStr "correct")) eqn:Hcorrect.
    { exfalso. simpl in Hgone. unfold save_session, session_pop in Hgone. simpl in Hgone.
      destruct (modified _ || _)%bool.
      - rewrite lookup_delete_ne in Hgone by apply keys_differ.
        rewrite (change_in_place_draft _ _ _ _ Hx) in Hgone. done.
      - congruence. }
    destruct (py_eq kind (VStr "cancel")) eqn:Hcancel.
    { right. by apply py_eq_text. }
    exfalso. simpl in Hgone. rewrite change_in_place_unsaved in Hgone. congruence.
Qed.

(** The caller says yes while the store is unreachable. *)
Lemma failed_booking_keeps_session_witness :
  cookie (confirm_appointment sample_runtime (sample_request "yes")
            (Json (VDict [("response_type", VStr "confirm")]))
            (world_with sample_draft offline_store)).2
  = cookie (world_with sample_draft offline_store).
Proof.
  pose proof (failed_booking_keeps_session sample_runtime (sample_request "yes")
                (Json (VDict [("response_type", VStr "confirm")]))
                (world_with sample_draft offline_store) sample_draft) as Hkeep.
  cbv zeta in Hkeep.
  destruct Hkeep as [Hfail _]; [vm_compute; reflexivity|].
  destruct (Hfail (VStr "confirm")) as (_ & Hcookie & _);
    [vm_compute; reflexivity|reflexivity|left; vm_compute; reflexivity|].
  exact Hcookie.
Defined.


(** ** Name templates *)

Lemma letter_title c : is_letter c = true -> to_title c = String (capital c) EmptyString.
Proof. ascii_cases c. Qed.
Lemma letter_lower c : is_letter c = true -> to_lower c = small c.
Proof. ascii_cases c. Qed.

Lemma title_from_app prev s rest :
  title_from prev (s +:+ String " " rest)
  = title_from prev s +:+ String " " (title_from false rest).
Proof.
  revert prev. induction s as [|c s IH]; intros prev.
  - rewrite append_nil. simpl. by destruct prev.
  - rewrite append_cons. simpl. by rewrite IH, append_assoc.
Qed.

(** Title-casing a line of words is title-casing each word. *)
Lemma title_join ws : title (join " " ws) = join " " (List.map title ws).
Proof.
  unfold title, join. induction ws as [|w [|w' ws] IH]; [done..|].
  change (String.concat " " (w :: w' :: ws))
    with (w +:+ String " " (String.concat " " (w' :: ws))).
  rewrite title_from_app, IH. done.
Qed.

(** A word of letters gets a capital first letter and small letters. *)
Lemma title_from_letters w :
  all_chars is_letter w = true -> title_from true w = map_chars small w.
Proof.
  induction w as [|c w IH]; simpl; [done|]. intros H.
  apply andb_true_iff in H as [Hc Hw].
  by rewrite (letter_lower c Hc), (letter_alpha c Hc), (IH Hw).
Qed.

Lemma title_letters w : all_chars is_letter w = true -> title w = title_cased w.
Proof.
  destruct w as [|c w]; [done|]. simpl. intros H. apply andb_true_iff in H as [Hc Hw].
  unfold title. simpl.
  by rewrite (letter_title c Hc), (letter_alpha c Hc), (title_from_letters w Hw).
Qed.

(** *** [split] and the words of a text *)

Lemma rev_string_rev w : rev_string (List.rev (list_ascii_of_string w)) = w.
Proof. unfold rev_string. by rewrite List.rev_involutive, string_of_list_ascii_of_string. Qed.

Lemma split_from_word w :
  forall cur s,
    all_chars no_blank w = true ->
    split_from cur (w +:+ s) = split_from (List.rev (list_ascii_of_string w) ++ cur) s.
Proof.
  induction w as [|c w IH]; intros cur s Hw; [done|].
  simpl in Hw. apply andb_true_iff in Hw as [Hc Hw].
  rewrite append_cons. simpl. unfold no_blank in Hc. apply negb_true_iff in Hc. rewrite Hc.
  rewrite (IH _ _ Hw). by rewrite <- app_assoc.
Qed.

Lemma split_words_of s ws : words_of s ws -> split s = ws.
Proof.
  unfold split. induction 1 as [|c s ws Hc _ IH|w s ws Hne Hw He _ IH].
  - done.
  - simpl. by rewrite Hc.
  - rewrite (split_from_word w [] s Hw), app_nil_r.
    assert (flush (List.rev (list_ascii_of_string w)) = [w]) as Hflush.
    { unfold flush. destruct (List.rev (list_ascii_of_string w)) as [|a l] eqn:Hr.
      - exfalso. apply Hne. apply (f_equal (@List.rev ascii)) in Hr.
        rewrite List.rev_involutive in Hr. simpl in Hr.
        apply (f_equal string_of_list_ascii) in Hr.
        by rewrite string_of_list_ascii_of_string in Hr.
      - by rewrite <- Hr, rev_string_rev. }
    destruct s as [|c s]; simpl in *.
    + by rewrite Hflush, <- IH.
    + rewrite He in *. by rewrite Hflush, <- IH.
Qed.

Lemma split_lstrip s : split (lstrip s) = split s.
Proof.
  unfold split, lstrip. induction s as [|c s IH]; simpl; [done|].
  destruct (is_space c) eqn:Hc; simpl; [done|]. by rewrite Hc.
Qed.

Lemma split_from_rstrip s : forall cur, split_from cur (rstrip s) = split_from cur s.
Proof.
  unfold rstrip. induction s as [|c s IH]; intros cur; simpl; [done|].
  destruct (rstrip_by is_space s) as [|c' r] eqn:Hr.
  - destruct (is_space c) eqn:Hc; simpl.
    + by rewrite <- (IH []), app_nil_r.
    + by rewrite Hc, <- (IH (c :: cur)).
  - simpl. destruct (is_space c) eqn:Hc.
    + by rewrite <- (IH []).
    + by rewrite <- (IH (c :: cur)).
Qed.

Lemma split_strip s : split (strip s) = split s.
Proof.
  unfold strip, strip_by. fold (lstrip s). fold (rstrip (lstrip s)).
  unfold split at 1. rewrite split_from_rstrip. apply split_lstrip.
Qed.

Lemma words_of_chars (P : ascii -> bool) s ws :
  words_of s ws ->
  all_chars (fun c => P c || is_space c)%bool s = true ->
  Forall (fun w => all_chars P w = true) ws.
Proof.
  induction 1 as [|c s ws Hc _ IH|w s ws Hne Hw He _ IH]; intros Hs.
  - constructor.
  - simpl in Hs. apply andb_true_iff in Hs as [_ Hs]. auto.
  - rewrite all_chars_append in Hs. apply andb_true_iff in Hs as [Hw' Hs].
    constructor; [|auto].
    clear -Hw Hw'. induction w as [|c w IH]; [done|]. simpl in *.
    apply andb_true_iff in Hw as [Hc Hw]. apply andb_true_iff in Hw' as [Hc' Hw'].
    unfold no_blank in Hc. apply negb_true_iff in Hc. rewrite Hc, orb_false_r in Hc'.
    by rewrite Hc', IH.
Qed.

(** *** The stop words *)

Lemma member_elem w (l : list string) : member w l = bool_decide (w ∈ l).
Proof.
  unfold member. induction l as [|x l IH]; simpl; [done|].
  rewrite IH. destruct (String.eqb_spec w x) as [->|Hne]; simpl.
  - symmetry. apply bool_decide_eq_true_2. by left.
  - apply bool_decide_ext. rewrite elem_of_cons. intuition congruence.
Qed.

Lemma clean_words_kept span ws : words_of span ws -> clean_words span = kept_words ws.
Proof.
  intros Hw. unfold clean_words, kept_words. rewrite split_strip, (split_words_of span ws Hw).
  apply filter_ext. intros w. by rewrite member_elem.
Qed.

Lemma name_patterns_capture_letters :
  Forall (groups_capture (run_of alpha_or_space)) name_patterns.
Proof.
  unfold name_patterns. repeat constructor; simpl; repeat split;
    intros; by eapply plus_captures_run.
Qed.

(** The template loop returns the cleaned span of the first template, in
    order, that matches and keeps a word. *)
Lemma name_from_first patterns speech_lower name :
  name_from patterns speech_lower = Some name <->
  exists before pattern after span,
    patterns = (before ++ pattern :: after)%list
    /\ Forall (fun p => forall sp, capture p speech_lower = Some sp -> clean_words sp = []) before
    /\ capture pattern speech_lower = Some span
    /\ clean_words span <> []
    /\ name = title (join " " (clean_words span)).
Proof.
  induction patterns as [|p ps IH]; simpl.
  - split; [done|]. intros (before & ? & ? & ? & H & _). by destruct before.
  - split.
    + intros H.
      destruct (capture p speech_lower) as [sp|] eqn:Hc.
      * destruct (clean_words sp) as [|w ws] eqn:Hw.
        -- apply IH in H as (before & pattern & after & span & -> & Hb & H').
           exists (p :: before), pattern, after, span. split; [done|]. split; [|done].
           apply Forall_cons. split; [|done]. intros sp' Hsp. congruence.
        -- injection H as <-. exists [], p, ps, sp. rewrite Hw. by repeat split.
      * apply IH in H as (before & pattern & after & span & -> & Hb & H').
        exists (p :: before), pattern, after, span. split; [done|]. split; [|done].
        apply Forall_cons. split; [|done]. intros sp' Hsp. congruence.
    + intros (before & pattern & after & span & Heq & Hb & Hc & Hw & ->).
      destruct before as [|p' before]; simpl in Heq; injection Heq as -> ->.
      * rewrite Hc. by destruct (clean_words span).
      * apply Forall_cons in Hb as [Hp Hb].
        assert (name_from (before ++ pattern :: after) speech_lower
                = Some (title (join " " (clean_words span)))) as Hrest.
        { apply IH. by exists before, pattern, after, span. }
        destruct (capture p' speech_lower) as [sp|]; [|done].
        by rewrite (Hp sp eq_refl).
Qed.

(** C6, as amended.  For every transcript: when a name template matches
    the lower-cased transcript with a span of which at least one word is
    left once the words of the fixed list are removed, and every template
    before it either does not match or matches a span whose words are all
    in the list, the name recorded in the draft is made of the span's
    remaining words, in their order, each with a capital first letter and
    small letters after it, joined by single blanks.  The words of a span
    are its maximal runs of characters that are no blanks.  (A template
    whose span holds listed words only records nothing, and the
    short-utterance rule may then take the whole transcript as the
    name.) *)
Theorem template_name speech (d : gmap string pyval) before pattern after span ws :
  name_patterns = (before ++ pattern :: after)%list ->
  Forall (fun p => forall sp, capture p (lower speech) = Some sp ->
                     exists ws', words_of sp ws' /\ kept_words ws' = []) before ->
  capture pattern (lower speech) = Some span ->
  words_of span ws ->
  kept_words ws <> [] ->
  capture_name speech d !! "patient" = Some (VStr (spec_name ws))
  /\ Forall (fun w => w ∉ fixed_stop_words) (kept_words ws).
Proof.
  intros Heq Hb Hc Hw Hkept. split.
  - unfold capture_name.
    assert (name_from name_patterns (lower speech)
            = Some (title (join " " (clean_words span)))) as ->.
    { apply name_from_first. exists before, pattern, after, span.
      split; [done|]. split; [|by rewrite (clean_words_kept span ws Hw)].
      eapply Forall_impl; [exact Hb|]. intros p Hp sp Hsp.
      destruct (Hp sp Hsp) as (ws' & Hws' & Hnone). by rewrite (clean_words_kept sp ws' Hws'). }
    rewrite lookup_insert_eq, title_join, (clean_words_kept span ws Hw). do 2 f_equal.
    unfold spec_name. f_equal.
    assert (all_chars alpha_or_space span = true) as Hspan.
    { pose proof name_patterns_capture_letters as Hall. rewrite Heq in Hall.
      apply Forall_app in Hall as [_ Hall]. apply Forall_cons in Hall as [Hp _].
      by destruct (capture_group _ _ _ _ Hp Hc) as [? _]. }
    pose proof (words_of_chars is_letter span ws Hw Hspan) as Hletters.
    assert (Forall (fun w => all_chars is_letter w = true) (kept_words ws)) as Hk.
    { unfold kept_words. apply List.Forall_forall. intros w Hin.
      apply filter_In in Hin as [Hin _]. rewrite List.Forall_forall in Hletters. auto. }
    clear -Hk. induction Hk as [|w l Hw _ IH]; [done|].
    change (title w :: List.map title l = title_cased w :: (title_cased <$> l)).
    by rewrite (title_letters w Hw), IH.
  - unfold kept_words. apply List.Forall_forall. intros w Hin.
    apply filter_In in Hin as [_ Hin]. apply negb_true_iff in Hin.
    by apply bool_decide_eq_false in Hin.
Qed.

(** "my name is john calling" gives the patient "John". *)
Lemma template_name_witness :
  capture_name "my name is john calling" ∅ !! "patient" = Some (VStr "John").
Proof.
  destruct (template_name "my name is john calling" ∅ []
              (seqs [words ["my name is"; "this is"; "i am"; "i'm"; "name is"]; Lit " ";
                     Group (plus alpha_or_space)])
              [seqs [Group (plus alpha_or_space); Lit " "; Lit "is my name"];
               seqs [Lit "patient"; Opt (Lit "'s"); Lit " name "; Opt (Lit "is"); Lit " ";
                     Group (plus alpha_or_space)]]
              "john calling" ["john"; "calling"]) as [Hname _].
  - reflexivity.
  - apply Forall_nil_2.
  - vm_compute. reflexivity.
  - apply (words_word "john" " calling" ["calling"]); [done|reflexivity|reflexivity|].
    apply words_blank; [reflexivity|].
    apply (words_word "calling" EmptyString []); [done|reflexivity|exact I|constructor].
  - vm_compute. discriminate.
  - etrans; [exact Hname|]. vm_compute. reflexivity.
Defined.

(** C6 as stated fails: "i am here" is matched by the first template with
    the span "here", which is a word of the list; the name recorded is not
    the (empty) cleaned span but the whole utterance, "I Am Here". *)
Lemma stop_word_span_falls_through :
  capture (seqs [words ["my name is"; "this is"; "i am"; "i'm"; "name is"]; Lit " ";
                 Group (plus alpha_or_space)]) (lower "i am here") = Some "here"
  /\ words_of "here" ["here"]
  /\ kept_words ["here"] = []
  /\ capture_name "i am here" ∅ !! "patient" = Some (VStr "I Am Here").
Proof.
  split; [vm_compute; reflexivity|]. split.
  - apply (words_word "here" EmptyString []); [done|reflexivity|exact I|constructor].
  - split; vm_compute; reflexivity.
Qed.
